(** * Fleet console server (src/server.js)

    A shallow embedding of the server's helper functions and route
    handlers: the argument masking of [runFleetCommand], the output
    interpreter [parsePossibleJson], the record normaliser
    [extractHostsFromOutput], the validation helpers and the four routes
    that run the external tool.

    Conventions of the embedding.
    - A JavaScript string is a sequence of code units; the model keeps it
      as a [string] whose characters are the code units below 256.
    - A JSON value is [JsonValue]; a JavaScript value that may also be
      [undefined] is [option JsonValue] with [None] for [undefined].
    - The host's numbers and its [JSON.parse] are an interface
      ([Numbers], [Json]); the general theorems hold for every host and
      the worked examples run on the reference host of module [Ref].
    - A computation that may throw is a [Completion]; the interpreter also
      records every text it hands to [JSON.parse].
    - A route handler is the list of effects of its synchronous part; what
      happens when the child process ends is a separate function.
    - A field of a request is [Param]: missing, [null] or a text. Fields
      that hold another JSON value (a number, a boolean, a sequence, a
      mapping) are outside the embedding; on such a field a handler can
      throw ([address.startsWith], [str.includes]) before it answers.
    - The error [execFile] passes to its callback when the child exits
      with a code other than zero is [exithandler], after Node's
      [child_process]. *)

From Stdlib Require Import ZArith Ascii String List Bool Lia.
From stdpp Require Import gmap strings list fin_maps pretty.

#[local] Set Warnings "-register-all".

(** ** JavaScript strings *)

Definition LF : ascii := "010"%char.

Definition quote : ascii := "034"%char.

(** White space and line terminators stripped by [String.prototype.trim]
    and matched by [\s], among the code units below 256: TAB, LF, VT, FF,
    CR, SP and NBSP. *)
Definition isWhiteSpace (c : ascii) : bool :=
  let n := N_of_ascii c in
  ((9 <=? n) && (n <=? 13) || (n =? 32) || (n =? 160))%N.

Fixpoint trimStart (s : string) : string :=
  match s with
  | EmptyString => EmptyString
  | String c rest => if isWhiteSpace c then trimStart rest else s
  end.

Fixpoint trimEnd (s : string) : string :=
  match s with
  | EmptyString => EmptyString
  | String c rest =>
      match trimEnd rest with
      | EmptyString => if isWhiteSpace c then EmptyString else String c EmptyString
      | kept => String c kept
      end
  end.

Definition trim (s : string) : string := trimEnd (trimStart s).

(** [s.split(sep)] for a separator of one code unit. *)
Fixpoint split (sep : ascii) (s : string) : list string :=
  match s with
  | EmptyString => [EmptyString]
  | String c rest =>
      if Ascii.eqb c sep then EmptyString :: split sep rest
      else match split sep rest with
           | piece :: pieces => String c piece :: pieces
           | [] => [String c EmptyString]
           end
  end.

(** [s.indexOf(c)] and [s.lastIndexOf(c)]: a position, or -1. *)
Fixpoint indexOf (c : ascii) (s : string) : Z :=
  match s with
  | EmptyString => -1
  | String a rest =>
      if Ascii.eqb a c then 0
      else let r := indexOf c rest in if (r <? 0)%Z then -1 else (r + 1)%Z
  end.

Fixpoint lastIndexOf (c : ascii) (s : string) : Z :=
  match s with
  | EmptyString => -1
  | String a rest =>
      let r := lastIndexOf c rest in
      if (0 <=? r)%Z then (r + 1)%Z else if Ascii.eqb a c then 0 else -1
  end.

(** [s.slice(from, to)]: a negative bound counts from the end, and both
    bounds are clamped to the string. *)
Definition clamp (len i : Z) : Z :=
  if (i <? 0)%Z then Z.max (len + i) 0 else Z.min i len.

Definition slice (s : string) (from to : Z) : string :=
  let len := Z.of_nat (String.length s) in
  let a := clamp len from in
  let b := clamp len to in
  substring (Z.to_nat a) (Z.to_nat (b - a)) s.

(** [parts.join(sep)]. *)
Definition join (sep : string) (parts : list string) : string :=
  String.concat sep parts.

(** [s.includes(t)] and [s.startsWith(t)]. *)
Fixpoint includes (t s : string) : bool :=
  String.prefix t s || match s with
                | EmptyString => false
                | String _ rest => includes t rest
                end.

Definition startsWith (t s : string) : bool := String.prefix t s.

(** [Math.min(...xs)]; with no argument the host gives [Infinity], which
    no call of this program reaches. *)
Definition Math_min (xs : list Z) : Z :=
  match xs with
  | [] => 0
  | x :: rest => fold_right Z.min x rest
  end.

(** ** Values and exceptions *)

Class Numbers := {
  Number : Type;
  (** [Boolean(n)]: false for the zeros and NaN. *)
  Number_truthy : Number -> bool;
  (** [String(n)]. *)
  Number_toString : Number -> string }.

Inductive JsonValueOf (Number : Type) :=
| JNull
| JBool (b : bool)
| JNumber (n : Number)
| JString (s : string)
| JArray (items : list (JsonValueOf Number))
| JObject (fields : gmap string (JsonValueOf Number)).
Arguments JNull {Number}.
Arguments JBool {Number} b.
Arguments JNumber {Number} n.
Arguments JString {Number} s.
Arguments JArray {Number} items.
Arguments JObject {Number} fields.

(** The JSON values of the host at hand. *)
Abbreviation JsonValue := (JsonValueOf Number).

Inductive Exception :=
| Error (msg : string)
| SyntaxError (msg : string)
| TypeError (msg : string).

Definition message (e : Exception) : string :=
  match e with Error m | SyntaxError m | TypeError m => m end.

Inductive Completion (A : Type) :=
| Return (a : A)
| Throw (e : Exception).
Arguments Return {A} a.
Arguments Throw {A} e.

#[export] Instance Completion_ret : MRet Completion := @Return.
#[export] Instance Completion_bind : MBind Completion :=
  fun A B f m => match m with Return a => f a | Throw e => Throw e end.
#[export] Instance Completion_fmap : FMap Completion :=
  fun A B f m => match m with Return a => Return (f a) | Throw e => Throw e end.

Class Json `{Numbers} := {
  (** [JSON.parse(text)]: the decoded value, or the exception it throws. *)
  JSON_parse : string -> Completion JsonValue }.

(** ** Output interpreter *)

Section Interpreter.
Context `{Json}.

(** A result together with the texts handed to [JSON.parse], in call
    order. *)
Definition Traced (A : Type) : Type := (list string * A)%type.

Definition parse (text : string) : Traced (Completion JsonValue) :=
  ([text], JSON_parse text).

(** The [for (const line of lines)] loop: [parsedLines] grows by
    [push]; the first line that does not decode clears [ndjsonValid]
    and leaves the loop. *)
Fixpoint ndjsonLoop (lines : list string) (parsedLines : list JsonValue)
  : Traced (bool * list JsonValue) :=
  match lines with
  | [] => ([], (true, parsedLines))
  | line :: rest =>
      match JSON_parse line with
      | Return v =>
          let '(calls, r) := ndjsonLoop rest (parsedLines ++ [v]) in
          (line :: calls, r)
      | Throw _ => ([line], (false, parsedLines))
      end
  end.

Definition ndjsonLines (trimmed : string) : list string :=
  List.filter (fun line => negb (String.eqb line ""))
              (List.map trim (split LF trimmed)).

(** Lines 65 to 80: [Some] array when the strategy returns, [None] when
    control goes on to the next strategy. *)
Definition ndjsonDecode (trimmed : string) : Traced (option JsonValue) :=
  let lines := ndjsonLines trimmed in
  if (1 <? length lines)%nat then
    let '(calls, (ndjsonValid, parsedLines)) := ndjsonLoop lines [] in
    (calls, if ndjsonValid then Some (JArray parsedLines) else None)
  else ([], None).

Definition jsonStart (trimmed : string) : Z :=
  let startArray := indexOf "[" trimmed in
  let startObject := indexOf "{" trimmed in
  let startCandidates :=
    List.filter (fun idx => (0 <=? idx)%Z) [startArray; startObject] in
  if (0 <? length startCandidates)%nat then Math_min startCandidates else (-1)%Z.

Definition jsonEnd (trimmed : string) : Z :=
  let endArray := lastIndexOf "]" trimmed in
  let endObject := lastIndexOf "}" trimmed in
  Z.max endArray endObject.

(** Lines 82 to 95. *)
Definition embeddedDecode (trimmed : string) (firstErr : Exception)
  : Traced (Completion JsonValue) :=
  if ((0 <=? jsonStart trimmed)%Z && (jsonStart trimmed <? jsonEnd trimmed)%Z)%bool
  then
    let candidate := slice trimmed (jsonStart trimmed) (jsonEnd trimmed + 1) in
    parse candidate
  else
    ([], Throw (Error ("No valid JSON found in fleetctl output ("
                         +:+ message firstErr +:+ ")"))).

Definition parsePossibleJson (rawOutput : string) : Traced (Completion JsonValue) :=
  let trimmed := trim rawOutput in
  if String.eqb trimmed "" then
    ([], Throw (Error "Empty output from fleetctl"))
  else
    match JSON_parse trimmed with
    | Return v => ([trimmed], Return v)
    | Throw firstErr =>
        match ndjsonDecode trimmed with
        | (calls, Some parsedLines) => (trimmed :: calls, Return parsedLines)
        | (calls, None) =>
            let '(calls', r) := embeddedDecode trimmed firstErr in
            (trimmed :: calls ++ calls', r)
        end
    end.

End Interpreter.

(** ** Record normaliser *)

Section MapM.
Context {A B : Type} (f : A -> Completion B).

(** [items.map(f)] for a callback that may throw: the first exception
    ends the loop. *)
Fixpoint mapM (items : list A) : Completion (list B) :=
  match items with
  | [] => Return []
  | x :: rest => y ← f x; ys ← mapM rest; Return (y :: ys)
  end.
End MapM.

Section Normalizer.
Context `{Numbers}.

(** [Boolean(v)]. *)
Definition truthy (v : JsonValue) : bool :=
  match v with
  | JNull => false
  | JBool b => b
  | JNumber n => Number_truthy n
  | JString s => negb (String.eqb s "")
  | JArray _ | JObject _ => true
  end.

Definition truthyU (x : option JsonValue) : bool :=
  match x with Some v => truthy v | None => false end.

(** [typeof v === 'object'], which holds of [null] too. *)
Definition typeof_object (v : JsonValue) : bool :=
  match v with JNull | JArray _ | JObject _ => true | _ => false end.

Definition Array_isArray (x : option JsonValue) : bool :=
  match x with Some (JArray _) => true | _ => false end.

(** [x.key]. Reading a property of [null] or [undefined] throws. A
    mapping answers with its own field; on any other value the lookup
    goes to the prototype, and no prototype defines one of the names
    this program reads ([spec], [detail], [mdm], [uuid],
    [hardware_uuid], [hostname], [computer_name], [display_name],
    [platform], [osquery_platform], [status], [enrollment_status],
    [hosts], [data]). *)
Definition member (x : option JsonValue) (key : string)
  : Completion (option JsonValue) :=
  match x with
  | None =>
      Throw (TypeError ("Cannot read properties of undefined (reading '"
                          +:+ key +:+ "')"))
  | Some JNull =>
      Throw (TypeError ("Cannot read properties of null (reading '"
                          +:+ key +:+ "')"))
  | Some (JObject fields) => Return (fields !! key)
  | Some _ => Return None
  end.

(** [x?.key]. *)
Definition optMember (x : option JsonValue) (key : string)
  : Completion (option JsonValue) :=
  match x with
  | None | Some JNull => Return None
  | _ => member x key
  end.

(** [a || b]: [b] is evaluated only when [a] is falsy. *)
Definition orElse (a b : Completion (option JsonValue))
  : Completion (option JsonValue) :=
  x ← a; if truthyU x then Return x else b.

(** [String(v)]. An array is joined with commas, [null] elements giving
    the empty text. A mapping decoded from JSON has no callable field,
    so one with a field of its own named [toString] hides
    [Object.prototype.toString] and the conversion throws. *)
Fixpoint js_String (v : JsonValue) : Completion string :=
  match v with
  | JNull => Return "null"
  | JBool b => Return (if b then "true" else "false")
  | JNumber n => Return (Number_toString n)
  | JString s => Return s
  | JArray items =>
      join "," <$> mapM (fun item => match item with
                                     | JNull => Return ""
                                     | _ => js_String item
                                     end) items
  | JObject fields =>
      match fields !! "toString" with
      | Some _ => Throw (TypeError "Cannot convert object to primitive value")
      | None => Return "[object Object]"
      end
  end.

Definition js_StringU (x : option JsonValue) : Completion string :=
  match x with Some v => js_String v | None => Return "undefined" end.

(** The fields copied by [{...v}]: those of a mapping, the elements of
    an array and the code units of a text under their positions, and
    nothing for any other value. *)
Definition indexed {A : Type} (f : A -> JsonValue) (l : list A)
  : gmap string JsonValue :=
  list_to_map (imap (fun i x => (pretty i, f x)) l).

Definition spread (v : JsonValue) : gmap string JsonValue :=
  match v with
  | JObject fields => fields
  | JArray items => indexed (fun item => item) items
  | JString s => indexed (fun c => JString (String c "")) (list_ascii_of_string s)
  | _ => ∅
  end.

Definition emptyObject : Completion (option JsonValue) :=
  Return (Some (JObject ∅)).

Definition emptyString : Completion (option JsonValue) :=
  Return (Some (JString "")).

#[local] Infix "|||" := orElse (at level 50, left associativity).

Definition normalizeHost (host : JsonValue) : Completion (gmap string JsonValue) :=
  spec ← (if truthy host && typeof_object host
          then member (Some host) "spec" ||| emptyObject
          else emptyObject);
  detail ← (if truthy host && typeof_object host
            then member (Some host) "detail" ||| emptyObject
            else emptyObject);
  mdm ← member spec "mdm" ||| emptyObject;
  uuid ← optMember (Some host) "uuid"
         ||| member spec "uuid"
         ||| member spec "hardware_uuid"
         ||| member detail "uuid"
         ||| member detail "hardware_uuid"
         ||| emptyString;
  hostname ← optMember (Some host) "hostname"
             ||| member spec "hostname"
             ||| member spec "computer_name"
             ||| member spec "display_name"
             ||| member detail "hostname"
             ||| emptyString;
  platform ← optMember (Some host) "platform"
             ||| member spec "platform"
             ||| member spec "osquery_platform"
             ||| emptyString;
  status ← optMember (Some host) "status"
           ||| member spec "status"
           ||| member mdm "enrollment_status"
           ||| emptyString;
  uuid' ← (Return uuid ||| emptyString) ≫= js_StringU;
  hostname' ← (Return hostname ||| emptyString) ≫= js_StringU;
  platform' ← (Return platform ||| emptyString) ≫= js_StringU;
  status' ← (Return status ||| emptyString) ≫= js_StringU;
  Return (<["status" := JString status']>
          (<["platform" := JString platform']>
           (<["hostname" := JString hostname']>
            (<["uuid" := JString uuid']> (spread host))))).

Definition normalizeMany (items : list JsonValue)
  : Completion (list (gmap string JsonValue)) :=
  mapM normalizeHost items.

Definition extractHostsFromOutput (parsedOutput : JsonValue)
  : Completion (list (gmap string JsonValue)) :=
  match parsedOutput with
  | JArray items => normalizeMany items
  | _ =>
      if truthy parsedOutput && typeof_object parsedOutput then
        hosts ← member (Some parsedOutput) "hosts";
        match hosts with
        | Some (JArray items) => normalizeMany items
        | _ =>
            data ← member (Some parsedOutput) "data";
            match data with
            | Some (JArray items) => normalizeMany items
            | _ => normalizeMany [parsedOutput]
            end
        end
      else Return []
  end.

End Normalizer.

(** ** Regular expressions of the validation helpers

    Each helper tests a pattern anchored at both ends, so a text passes
    when the whole of it matches; matching is by derivatives. *)

Inductive Regex :=
| Void
| Eps
| Class (accepts : ascii -> bool)
| Seq (r1 r2 : Regex)
| Alt (r1 r2 : Regex)
| Star (r : Regex).

Fixpoint nullable (r : Regex) : bool :=
  match r with
  | Void | Class _ => false
  | Eps | Star _ => true
  | Seq r1 r2 => nullable r1 && nullable r2
  | Alt r1 r2 => nullable r1 || nullable r2
  end.

Definition seq (r1 r2 : Regex) : Regex :=
  match r1, r2 with
  | Void, _ | _, Void => Void
  | Eps, r | r, Eps => r
  | _, _ => Seq r1 r2
  end.

Definition alt (r1 r2 : Regex) : Regex :=
  match r1, r2 with
  | Void, r | r, Void => r
  | _, _ => Alt r1 r2
  end.

Fixpoint deriv (c : ascii) (r : Regex) : Regex :=
  match r with
  | Void | Eps => Void
  | Class accepts => if accepts c then Eps else Void
  | Seq r1 r2 =>
      alt (seq (deriv c r1) r2) (if nullable r1 then deriv c r2 else Void)
  | Alt r1 r2 => alt (deriv c r1) (deriv c r2)
  | Star r1 => seq (deriv c r1) (Star r1)
  end.

(** [/^r$/.test(s)]. *)
Fixpoint test (r : Regex) (s : string) : bool :=
  match s with
  | EmptyString => nullable r
  | String c rest => test (deriv c r) rest
  end.

Definition Plus (r : Regex) : Regex := Seq r (Star r).

Fixpoint Repeat (n : nat) (r : Regex) : Regex :=
  match n with
  | O => Eps
  | S k => Seq r (Repeat k r)
  end.

Definition inRange (lo hi c : ascii) : bool :=
  ((N_of_ascii lo <=? N_of_ascii c) && (N_of_ascii c <=? N_of_ascii hi))%N.

Definition isAlnum (c : ascii) : bool :=
  inRange "a" "z" c || inRange "A" "Z" c || inRange "0" "9" c.

Definition oneOf (chars : string) (c : ascii) : bool :=
  existsb (Ascii.eqb c) (list_ascii_of_string chars).

(** ** Validation helpers *)

(** A field of a request body or query: missing, [null], or a text.
    Every statement about a handler is about requests whose fields are of
    this kind. *)
Inductive Param :=
| PUndefined
| PNull
| PString (s : string).

Definition Param_truthy (p : Param) : bool :=
  match p with PString s => negb (String.eqb s "") | _ => false end.

Definition Param_String (p : Param) : string :=
  match p with PUndefined => "undefined" | PNull => "null" | PString s => s end.

(** [p || fallback]. *)
Definition Param_or (p : Param) (fallback : string) : string :=
  if Param_truthy p then Param_String p else fallback.

(** [/^[a-zA-Z0-9.-]+$/] *)
Definition isValidHostname (str : Param) : bool :=
  test (Plus (Class (fun c => isAlnum c || oneOf ".-" c))) (Param_String str).

(** [/^[^\s@]+@[^\s@]+\.[^\s@]+$/] *)
Definition isValidEmail (str : Param) : bool :=
  let word := Plus (Class (fun c => negb (isWhiteSpace c || oneOf "@" c))) in
  test (Seq word (Seq (Class (oneOf "@"))
                      (Seq word (Seq (Class (oneOf ".")) word))))
       (Param_String str).

(** [/^[a-zA-Z0-9._-]+$/.test(str || 'default')] *)
Definition isValidContext (str : Param) : bool :=
  test (Plus (Class (fun c => isAlnum c || oneOf "._-" c)))
       (Param_or str "default").

(** [/^[0-9a-fA-F-]{36}$/] *)
Definition isValidUUID (str : string) : bool :=
  test (Repeat 36 (Class (fun c => inRange "0" "9" c || inRange "a" "f" c
                                   || inRange "A" "F" c || oneOf "-" c)))
       str.

(** [/^[a-zA-Z0-9._-]+$/.test(str) && !str.includes('..')] *)
Definition isValidFilename (str : string) : bool :=
  test (Plus (Class (fun c => isAlnum c || oneOf "._-" c))) str
  && negb (includes ".." str).

Definition isValidHostIdentifier (str : Param) : bool :=
  match str with
  | PString s =>
      if String.eqb (trim s) "" then false
      else if isValidUUID (trim s) then true
      else test (Plus (Class (fun c => isAlnum c || oneOf "._- " c))) (trim s)
  | _ => false
  end.

(** ** Routes *)

(** What the server reads from its surroundings: the two configured
    paths, [path.join] and [fs.existsSync]. *)
Class Env := {
  FLEET_CTL_PATH : string;
  PAYLOADS_DIR : string;
  path_join : string -> string -> string;
  existsSync : string -> bool }.

Inductive BodyOf (Number : Type) :=
| BodyError (msg : string) (details : option string)
| BodyOutput (output : string)
| BodyData (data : JsonValueOf Number)
| BodyHosts (hosts : list (gmap string (JsonValueOf Number))).
Arguments BodyError {Number} msg details.
Arguments BodyOutput {Number} output.
Arguments BodyData {Number} data.
Arguments BodyHosts {Number} hosts.

(** What a handler does, in order. [ConsoleErrorWith text error] is
    [console.error(text, error)]: the text and the exception object, which
    Node prints with its name, message and stack. *)
Inductive EffectOf (Number : Type) :=
| ConsoleLog (text : string)
| ConsoleError (text : string)
| ConsoleErrorWith (text : string) (error : Exception)
| ExecFile (file : string) (args : list string) (maxBuffer : Z)
| Respond (status : Z) (body : BodyOf Number).
Arguments ConsoleLog {Number} text.
Arguments ConsoleError {Number} text.
Arguments ConsoleErrorWith {Number} text error.
Arguments ExecFile {Number} file args maxBuffer.
Arguments Respond {Number} status body.

Abbreviation Effect := (EffectOf Number).

Section Routes.
Context `{Json} `{Env}.

Definition maxBuffer : Z := 1024 * 1024 * 10.

(** The [args.map] at the head of [runFleetCommand]. *)
Definition safeArgs (args : list string) : list string :=
  imap (fun index arg =>
          if (0 <? index)%nat
             && bool_decide (args !! (index - 1)%nat = Some "--password")
          then "******" else arg) args.

(** [runFleetCommand] up to the call of [execFile]. *)
Definition runFleetCommand (args : list string) : list Effect :=
  [ ConsoleLog ("Executing: " +:+ FLEET_CTL_PATH +:+ " " +:+ join " " (safeArgs args));
    ExecFile FLEET_CTL_PATH args maxBuffer ].

(** What [execFile] passes as [error] to its callback when the child has
    run to its end with exit code [code] and no signal (Node,
    lib/child_process.js, [exithandler]): [null] for code zero, otherwise
    an [Error] whose message is
    [`Command failed: ${cmd}\n${stderr}`], where [cmd] is the file followed
    by the arguments, as they were given, joined by spaces. *)
Definition exithandler (file : string) (args : list string) (code : Z)
    (stderr : string) : option Exception :=
  if (code =? 0)%Z then None
  else
    let cmd := if (0 <? length args)%nat then file +:+ " " +:+ join " " args
               else file in
    Some (Error ("Command failed: " +:+ cmd +:+ String LF stderr)).

(** [stderr || error.message] *)
Definition details (stderr : string) (error : Exception) : string :=
  if String.eqb stderr "" then message error else stderr.

(** The callback [runFleetCommand] gives to [execFile]. *)
Definition runFleetCommand_done (args : list string) (error : option Exception)
    (stdout stderr : string) : list Effect :=
  match error with
  | Some err =>
      [ ConsoleError ("Command failed: " +:+ message err);
        Respond 500 (BodyError "Command execution failed" (Some (details stderr err))) ]
  | None =>
      if existsb (String.eqb "--json") args then
        match (parsePossibleJson stdout).2 with
        | Return jsonOutput => [ Respond 200 (BodyData jsonOutput) ]
        | Throw _ => [ Respond 200 (BodyOutput stdout) ]
        end
      else [ Respond 200 (BodyOutput stdout) ]
  end.

Definition badRequest (msg : string) : list Effect :=
  [ Respond 400 (BodyError msg None) ].

(** [POST /api/config] *)
Definition api_config (address context : Param) : list Effect :=
  if negb (Param_truthy address) || negb (startsWith "http" (Param_String address))
  then badRequest "Invalid address URL"
  else if negb (isValidContext context)
  then badRequest "Invalid context name"
  else runFleetCommand [ "config"; "set"; "--address"; Param_String address;
                         "--context"; Param_or context "default" ].

(** [POST /api/login] *)
Definition api_login (email password context : Param) : list Effect :=
  if negb (isValidEmail email)
  then badRequest "Invalid email format"
  else if negb (Param_truthy password)
  then badRequest "Password required"
  else runFleetCommand [ "login"; "--email"; Param_String email;
                         "--password"; Param_String password;
                         "--context"; Param_or context "default" ].

Definition hostsArgs (context : string) : list string :=
  [ "get"; "hosts"; "--mdm"; "--json"; "--context"; context ].

(** [GET /api/hosts] up to the call of [execFile]. *)
Definition api_hosts (queryContext : Param) : list Effect :=
  let context := Param_or queryContext "default" in
  if negb (isValidContext (PString context))
  then badRequest "Invalid context name"
  else [ ConsoleLog ("Executing: " +:+ FLEET_CTL_PATH +:+ " "
                       +:+ join " " (hostsArgs context));
         ExecFile FLEET_CTL_PATH (hostsArgs context) maxBuffer ].

(** The callback [GET /api/hosts] gives to [execFile]. *)
Definition api_hosts_done (error : option Exception) (stdout stderr : string)
  : list Effect :=
  match error with
  | Some err =>
      [ ConsoleError ("Get hosts error: " +:+ message err);
        Respond 500 (BodyError "Failed to fetch hosts" (Some (details stderr err))) ]
  | None =>
      match (parsePossibleJson stdout).2 ≫= extractHostsFromOutput with
      | Return hosts => [ Respond 200 (BodyHosts hosts) ]
      | Throw e =>
          [ ConsoleErrorWith "JSON Parse Error:" e;
            Respond 500 (BodyError "Failed to parse hosts JSON"
                           (Some (message e +:+ ". Raw output (first 400 chars): "
                                    +:+ slice stdout 0 400))) ]
      end
  end.

(** [POST /api/run-command]; [hosts] is [None] when the field is not an
    array. *)
Definition api_run_command (hosts : option (list Param)) (payload context : Param)
  : list Effect :=
  match hosts with
  | None | Some [] => badRequest "No hosts selected"
  | Some hosts =>
      if negb (isValidContext context)
      then badRequest "Invalid context name"
      else
        let invalidHosts :=
          List.filter (fun hostId => negb (isValidHostIdentifier hostId)) hosts in
        if (0 <? length invalidHosts)%nat
        then badRequest ("Invalid host identifiers detected: "
                           +:+ join ", " (List.map (fun p => Param_or p "") invalidHosts))
        else if negb (Param_truthy payload) || negb (isValidFilename (Param_String payload))
        then badRequest "Invalid payload filename"
        else
          let payloadPath := path_join PAYLOADS_DIR (Param_String payload) in
          if negb (existsSync payloadPath)
          then [ Respond 404 (BodyError "Payload file not found" None) ]
          else
            let hostList := join "," (List.map Param_String hosts) in
            runFleetCommand [ "mdm"; "run-command"; "--payload"; payloadPath;
                              "--hosts"; hostList;
                              "--context"; Param_or context "default" ]
  end.

End Routes.

(** ** Reference host

    A host on which the worked examples run. Its numbers are exact
    decimals (rounding to binary64 is not modelled) and its decoder reads
    the JSON grammar of ECMA-404, reporting the first offending position
    in the wording of V8. An escape that denotes a code unit above 255
    has no image in [string]; the decoder rejects it with an [Error]. *)

Module Ref.

Record Decimal := { mantissa : Z; exponent : Z }.

Fixpoint stripZeros (digits : string) : string :=
  match digits with
  | EmptyString => EmptyString
  | String c rest =>
      match stripZeros rest with
      | EmptyString => if Ascii.eqb c "0" then EmptyString else String c EmptyString
      | kept => String c kept
      end
  end.

Fixpoint zeros (n : nat) : string :=
  match n with O => EmptyString | S k => String "0" (zeros k) end.

(** [Number::toString] on the shortest digit string [s] of a positive
    number [s * 10^(n - k)] with [k] digits. *)
Definition digitsToString (s : string) (n : Z) : string :=
  let k := Z.of_nat (String.length s) in
  if ((k <=? n) && (n <=? 21))%Z then s +:+ zeros (Z.to_nat (n - k))
  else if ((0 <? n) && (n <=? 21))%Z then
    substring 0 (Z.to_nat n) s +:+ "." +:+ substring (Z.to_nat n) (Z.to_nat (k - n)) s
  else if ((-6 <? n) && (n <=? 0))%Z then "0." +:+ zeros (Z.to_nat (- n)) +:+ s
  else
    let e := (n - 1)%Z in
    let sign := if (e <? 0)%Z then "-" else "+" in
    let head := substring 0 1 s in
    let tail := substring 1 (Z.to_nat (k - 1)) s in
    (if (k =? 1)%Z then head else head +:+ "." +:+ tail)
      +:+ "e" +:+ sign +:+ pretty (Z.abs e).

Definition Decimal_toString (d : Decimal) : string :=
  if (mantissa d =? 0)%Z then "0"
  else
    let all := pretty (Z.abs (mantissa d)) in
    let s := stripZeros all in
    let n := (Z.of_nat (String.length all) + exponent d)%Z in
    (if (mantissa d <? 0)%Z then "-" else "") +:+ digitsToString s n.

Definition numbers : Numbers :=
  {| Number := Decimal;
     Number_truthy := fun d => negb (mantissa d =? 0)%Z;
     Number_toString := Decimal_toString |}.

Abbreviation Value := (JsonValueOf Decimal).

(** A step of the decoder: a value, the text left and its position. *)
Inductive Step (A : Type) :=
| Ok (a : A) (rest : string) (pos : nat)
| Bad (e : Exception).
Arguments Ok {A} a rest pos.
Arguments Bad {A} e.

Definition isDigit (c : ascii) : bool := inRange "0" "9" c.

Definition unexpected {A : Type} (s : string) (pos : nat) : Step A :=
  match s with
  | EmptyString => Bad (SyntaxError "Unexpected end of JSON input")
  | String c _ =>
      if Ascii.eqb c quote then
        Bad (SyntaxError ("Unexpected string in JSON at position " +:+ pretty pos))
      else if isDigit c || Ascii.eqb c "-" then
        Bad (SyntaxError ("Unexpected number in JSON at position " +:+ pretty pos))
      else
        Bad (SyntaxError ("Unexpected token " +:+ String c ""
                            +:+ " in JSON at position " +:+ pretty pos))
  end.

(** JSON white space: space, TAB, LF and CR. *)
Fixpoint skipWs (s : string) (pos : nat) : string * nat :=
  match s with
  | String c rest => if oneOf (String " " (String "009" (String "010" (String "013" "")))) c
                     then skipWs rest (S pos) else (s, pos)
  | EmptyString => (s, pos)
  end.

(** The rest of a literal name ([true], [false], [null]). *)
Fixpoint literal {A : Type} (name : string) (a : A) (s : string) (pos : nat) : Step A :=
  match name with
  | EmptyString => Ok a s pos
  | String c name' =>
      match s with
      | String d rest => if Ascii.eqb c d then literal name' a rest (S pos)
                         else unexpected s pos
      | EmptyString => unexpected s pos
      end
  end.

Definition hexValue (c : ascii) : option N :=
  if isDigit c then Some (N_of_ascii c - 48)%N
  else if inRange "a" "f" c then Some (N_of_ascii c - 87)%N
  else if inRange "A" "F" c then Some (N_of_ascii c - 55)%N
  else None.

(** Four hexadecimal digits of a [\u] escape. *)
Fixpoint hex4 (n : nat) (acc : N) (s : string) (pos : nat) : Step N :=
  match n with
  | O => Ok acc s pos
  | S k =>
      match s with
      | String c rest =>
          match hexValue c with
          | Some d => hex4 k (acc * 16 + d)%N rest (S pos)
          | None => unexpected s pos
          end
      | EmptyString => unexpected s pos
      end
  end.

Definition escapes : list (ascii * ascii) :=
  [ ("034", "034"); ("\", "\"); ("/", "/"); ("b", "008"); ("f", "012");
    ("n", "010"); ("r", "013"); ("t", "009") ]%char.

(** The characters of a string after its opening quote; [fuel] bounds
    the characters read. *)
Fixpoint stringBody (fuel : nat) (s : string) (pos : nat) : Step string :=
  match fuel with
  | O => unexpected EmptyString pos
  | S fuel' =>
      match s with
      | EmptyString => unexpected s pos
      | String c rest =>
          if Ascii.eqb c quote then Ok EmptyString rest (S pos)
          else if (N_of_ascii c <? 32)%N then unexpected s pos
          else if Ascii.eqb c "\" then
            match rest with
            | EmptyString => unexpected rest (S pos)
            | String e rest' =>
                if Ascii.eqb e "u" then
                  match hex4 4 0 rest' (S (S pos)) with
                  | Ok unit rest'' pos'' =>
                      if (unit <? 256)%N then
                        match stringBody fuel' rest'' pos'' with
                        | Ok body r p => Ok (String (ascii_of_N unit) body) r p
                        | Bad err => Bad err
                        end
                      else Bad (Error "code unit above 255")
                  | Bad err => Bad err
                  end
                else
                  match List.find (fun p => Ascii.eqb e p.1) escapes with
                  | Some (_, d) =>
                      match stringBody fuel' rest' (S (S pos)) with
                      | Ok body r p => Ok (String d body) r p
                      | Bad err => Bad err
                      end
                  | None => unexpected rest (S pos)
                  end
            end
          else
            match stringBody fuel' rest (S pos) with
            | Ok body r p => Ok (String c body) r p
            | Bad err => Bad err
            end
      end
  end.

(** A run of digits: its value, its length and what follows. *)
Fixpoint digits (acc : Z) (count : nat) (s : string) (pos : nat)
  : Z * nat * string * nat :=
  match s with
  | String c rest =>
      if isDigit c
      then digits (acc * 10 + Z.of_N (N_of_ascii c - 48)) (S count) rest (S pos)
      else (acc, count, s, pos)
  | EmptyString => (acc, count, s, pos)
  end.

(** A number from its first digit on; [neg] tells whether a minus sign
    came before. *)
Definition number (neg : bool) (s : string) (pos : nat) : Step Decimal :=
  match s with
  | String c rest =>
      if isDigit c then
        let '(int, _, s1, p1) :=
          if Ascii.eqb c "0" then (0%Z, 1%nat, rest, S pos) else digits 0 0 s pos in
        let frac :=
          match s1 with
          | String "." s2 =>
              let '(m, n, s3, p3) := digits int 0 s2 (S p1) in
              if (n =? 0)%nat then inr (s2, S p1) else inl (m, n, s3, p3)
          | _ => inl (int, 0%nat, s1, p1)
          end in
        match frac with
        | inr (s2, p2) => unexpected s2 p2
        | inl (m, n, s3, p3) =>
            let signed := if neg then (- m)%Z else m in
            match s3 with
            | String e s4 =>
                if oneOf "eE" e then
                  let '(minus, s5, p5) :=
                    match s4 with
                    | String "-" s5 => (true, s5, S (S p3))
                    | String "+" s5 => (false, s5, S (S p3))
                    | _ => (false, s4, S p3)
                    end in
                  let '(x, k, s6, p6) := digits 0 0 s5 p5 in
                  if (k =? 0)%nat then unexpected s5 p5
                  else Ok {| mantissa := signed;
                             exponent := (if minus then - x else x) - Z.of_nat n |}
                          s6 p6
                else Ok {| mantissa := signed; exponent := - Z.of_nat n |} s3 p3
            | EmptyString => Ok {| mantissa := signed; exponent := - Z.of_nat n |} s3 p3
            end
        end
      else unexpected s pos
  | EmptyString => unexpected s pos
  end.

(** A value; then the elements of an array after its bracket or a comma,
    and the members of a mapping after its brace or a comma. A repeated
    key keeps its last value. *)
Fixpoint value (fuel : nat) (s : string) (pos : nat) : Step Value :=
  match fuel with
  | O => unexpected EmptyString pos
  | S fuel' =>
      let '(s, pos) := skipWs s pos in
      match s with
      | EmptyString => unexpected s pos
      | String c rest =>
          if Ascii.eqb c "{" then
            let '(s1, p1) := skipWs rest (S pos) in
            match s1 with
            | String "}" s2 => Ok (JObject ∅) s2 (S p1)
            | _ => members fuel' ∅ s1 p1
            end
          else if Ascii.eqb c "[" then
            let '(s1, p1) := skipWs rest (S pos) in
            match s1 with
            | String "]" s2 => Ok (JArray []) s2 (S p1)
            | _ => elements fuel' [] s1 p1
            end
          else if Ascii.eqb c quote then
            match stringBody (String.length rest) rest (S pos) with
            | Ok text r p => Ok (JString text) r p
            | Bad err => Bad err
            end
          else if Ascii.eqb c "t" then literal "rue" (JBool true) rest (S pos)
          else if Ascii.eqb c "f" then literal "alse" (JBool false) rest (S pos)
          else if Ascii.eqb c "n" then literal "ull" JNull rest (S pos)
          else if Ascii.eqb c "-" then
            match number true rest (S pos) with
            | Ok d r p => Ok (JNumber d) r p
            | Bad err => Bad err
            end
          else if isDigit c then
            match number false s pos with
            | Ok d r p => Ok (JNumber d) r p
            | Bad err => Bad err
            end
          else unexpected s pos
      end
  end
with elements (fuel : nat) (acc : list Value) (s : string) (pos : nat) : Step Value :=
  match fuel with
  | O => unexpected EmptyString pos
  | S fuel' =>
      match value fuel' s pos with
      | Bad err => Bad err
      | Ok v s1 p1 =>
          let '(s2, p2) := skipWs s1 p1 in
          match s2 with
          | String "," s3 => elements fuel' (acc ++ [v]) s3 (S p2)
          | String "]" s3 => Ok (JArray (acc ++ [v])) s3 (S p2)
          | _ => unexpected s2 p2
          end
      end
  end
with members (fuel : nat) (acc : gmap string Value) (s : string) (pos : nat)
  : Step Value :=
  match fuel with
  | O => unexpected EmptyString pos
  | S fuel' =>
      let '(s0, p0) := skipWs s pos in
      match s0 with
      | String "034" s1 =>
          match stringBody (String.length s1) s1 (S p0) with
          | Bad err => Bad err
          | Ok key s2 p2 =>
              let '(s3, p3) := skipWs s2 p2 in
              match s3 with
              | String ":" s4 =>
                  match value fuel' s4 (S p3) with
                  | Bad err => Bad err
                  | Ok v s5 p5 =>
                      let '(s6, p6) := skipWs s5 p5 in
                      match s6 with
                      | String "," s7 => members fuel' (<[key := v]> acc) s7 (S p6)
                      | String "}" s7 => Ok (JObject (<[key := v]> acc)) s7 (S p6)
                      | _ => unexpected s6 p6
                      end
                  end
              | _ => unexpected s3 p3
              end
          end
      | _ => unexpected s0 p0
      end
  end.

(** [JSON.parse(text)]: one value, with nothing but white space after. *)
Definition decode (text : string) : Completion Value :=
  match value (2 * String.length text + 2) text 0 with
  | Bad err => Throw err
  | Ok v rest pos =>
      let '(s, p) := skipWs rest pos in
      match s with
      | EmptyString => Return v
      | _ => match unexpected (A := unit) s p with
             | Bad err => Throw err
             | Ok _ _ _ => Return v
             end
      end
  end.

Definition json : @Json numbers := @Build_Json numbers decode.

Definition env : Env :=
  {| FLEET_CTL_PATH := "/opt/fleet_ctl/fleetctl";
     PAYLOADS_DIR := "/opt/payloads";
     path_join := fun dir name => dir +:+ "/" +:+ name;
     existsSync := fun path => String.eqb path "/opt/payloads/lock-device.xml" |}.

End Ref.

(** ** Specification vocabulary *)

(** Texts of the worked examples: [quoted s] is [s] between double
    quotes, and [nl] ends a line. *)
Definition quoted (s : string) : string := String quote (s +:+ String quote "").

Definition nl : string := String LF "".

Definition isReturn {A : Type} (m : Completion A) : Prop := exists a, m = Return a.

Definition isThrow {A : Type} (m : Completion A) : Prop := exists e, m = Throw e.

(** [i] is the position of the first (last) character of [s] that
    satisfies [p], or -1 when there is none. *)
Definition earliest (p : ascii -> bool) (s : string) (i : Z) : Prop :=
  (i = (-1)%Z /\ forall j c, String.get j s = Some c -> p c = false)
  \/ (exists n c, i = Z.of_nat n /\ String.get n s = Some c /\ p c = true
                  /\ forall j d, (j < n)%nat -> String.get j s = Some d -> p d = false).

Definition latest (p : ascii -> bool) (s : string) (i : Z) : Prop :=
  (i = (-1)%Z /\ forall j c, String.get j s = Some c -> p c = false)
  \/ (exists n c, i = Z.of_nat n /\ String.get n s = Some c /\ p c = true
                  /\ forall j d, (n < j)%nat -> String.get j s = Some d -> p d = false).

Definition opens (c : ascii) : bool := Ascii.eqb c "[" || Ascii.eqb c "{".
Definition closes (c : ascii) : bool := Ascii.eqb c "]" || Ascii.eqb c "}".

Section NormalizerVocabulary.
Context `{Numbers}.

(** The field of a mapping under a key; any other value has none. *)
Definition field (v : JsonValue) (key : string) : option JsonValue :=
  match v with JObject fields => fields !! key | _ => None end.

(** The value reached from [v] through nested mappings along [path]:
    [spec.mdm.enrollment_status] is the path of those three keys. *)
Definition lookupPath (v : JsonValue) (path : list string) : option JsonValue :=
  fold_left (fun reached key => reached ≫= fun w => field w key) path (Some v).

(** The first candidate that is not empty; a candidate is empty when the
    field is missing or holds [null], [false], a zero or the empty text. *)
Fixpoint firstNonEmpty (candidates : list (option JsonValue)) : option JsonValue :=
  match candidates with
  | [] => None
  | c :: rest => if truthyU c then c else firstNonEmpty rest
  end.

Definition idPaths : list (list string) :=
  [ ["uuid"]; ["spec"; "uuid"]; ["spec"; "hardware_uuid"];
    ["detail"; "uuid"]; ["detail"; "hardware_uuid"] ].

Definition displayNamePaths : list (list string) :=
  [ ["hostname"]; ["spec"; "hostname"]; ["spec"; "computer_name"];
    ["spec"; "display_name"]; ["detail"; "hostname"] ].

Definition platformPaths : list (list string) :=
  [ ["platform"]; ["spec"; "platform"]; ["spec"; "osquery_platform"] ].

Definition statusPaths : list (list string) :=
  [ ["status"]; ["spec"; "status"]; ["spec"; "mdm"; "enrollment_status"] ].

Definition selected (host : JsonValue) (paths : list (list string))
  : option JsonValue :=
  firstNonEmpty (List.map (lookupPath host) paths).

(** The text of a canonical field: the selected candidate as a string,
    or the empty text when every candidate is empty. *)
Definition canonical (host : JsonValue) (paths : list (list string))
  : Completion string :=
  match selected host paths with
  | Some v => js_String v
  | None => Return ""
  end.

(** The record of a device: its own fields with the four canonical ones
    written over them. The source names the canonical fields [uuid] (the
    id), [hostname] (the display name), [platform] and [status]. *)
Definition record (host : JsonValue) (id displayName platform status : string)
  : gmap string JsonValue :=
  <["status" := JString status]>
    (<["platform" := JString platform]>
       (<["hostname" := JString displayName]>
          (<["uuid" := JString id]> (spread host)))).

Definition canonicalKeys : list string := ["uuid"; "hostname"; "platform"; "status"].

(** The devices of a decoded value, by its shape. *)
Definition devices (value : JsonValue) : list JsonValue :=
  match value with
  | JArray items => items
  | JObject fields =>
      match fields !! "hosts" with
      | Some (JArray items) => items
      | _ => match fields !! "data" with
             | Some (JArray items) => items
             | _ => [value]
             end
      end
  | _ => []
  end.

(** [String(v)] returns: no mapping met by the conversion has a field of
    its own named [toString]. *)
Fixpoint plain (v : JsonValue) : bool :=
  match v with
  | JArray items => forallb plain items
  | JObject fields => bool_decide (fields !! "toString" = None)
  | _ => true
  end.

(** The candidates selected for the four canonical fields of a device
    all have a string form. *)
Definition coercible (host : JsonValue) : bool :=
  forallb (fun paths => match selected host paths with
                        | Some v => plain v
                        | None => true
                        end)
          [idPaths; displayNamePaths; platformPaths; statusPaths].

(** [r] is the record of [host]: the four canonical fields are texts,
    empty when no candidate is selected, and every other field is the
    one [host] has. *)
Definition normalized (host : JsonValue) (r : gmap string JsonValue) : Prop :=
  exists id displayName platform status,
    r !! "uuid" = Some (JString id)
    /\ r !! "hostname" = Some (JString displayName)
    /\ r !! "platform" = Some (JString platform)
    /\ r !! "status" = Some (JString status)
    /\ (selected host idPaths = None -> id = "")
    /\ (selected host displayNamePaths = None -> displayName = "")
    /\ (selected host platformPaths = None -> platform = "")
    /\ (selected host statusPaths = None -> status = "")
    /\ (forall key, key ∉ canonicalKeys -> r !! key = spread host !! key).

(** [x || {}], as the nested mappings [spec], [detail] and [mdm] are read. *)
Definition orEmptyObject (x : option JsonValue) : JsonValue :=
  match x with
  | Some v => if truthy v then v else JObject ∅
  | None => JObject ∅
  end.

(** [a || b] on two values at hand. *)
Definition pick (a b : option JsonValue) : option JsonValue :=
  if truthyU a then a else b.

End NormalizerVocabulary.

Section RouteVocabulary.
Context `{Numbers}.



(** The handler starts the tool with the argument vector [args]. *)
Definition runsWith (effects : list Effect) (args : list string) : Prop :=
  exists file buffer, ExecFile file args buffer ∈ effects.


End RouteVocabulary.

(** ** Worked examples *)

(** Texts. *)
Definition bannerThenArray : string :=
  "Warning: deprecated" +:+ nl +:+ "[{" +:+ quoted "a" +:+ ":1}]" +:+ nl.

Definition twoDocuments : string :=
  "{" +:+ quoted "a" +:+ ":1}" +:+ nl +:+ "{" +:+ quoted "b" +:+ ":2}".

Definition documentThenNoise : string :=
  "{" +:+ quoted "a" +:+ ":1}" +:+ nl +:+ "not json".

Definition one : Ref.Decimal := {| Ref.mantissa := 1; Ref.exponent := 0 |}.

Definition two : Ref.Decimal := {| Ref.mantissa := 2; Ref.exponent := 0 |}.

(** Decoded values. *)
Definition statusOnly : Ref.Value := JObject {[ "status" := JBool true ]}.

Definition shadowed : Ref.Value :=
  JObject {[ "uuid" := JObject {[ "toString" := JNull ]} ]}.

Definition specOnly : Ref.Value :=
  JObject {[ "spec" := JObject {[ "hardware_uuid" := JString "X";
                                  "computer_name" := JString "Y" ]} ]}.

Definition hostRecord : Ref.Value :=
  JObject {[ "uuid" := JString "u1"; "hostname" := JString "h1";
             "platform" := JString "darwin"; "status" := JString "online" ]}.

Definition hostsEnvelope : Ref.Value :=
  JObject {[ "hosts" := JArray [hostRecord] ]}.

(** An argument vector. *)
Definition loginArgs : list string :=
  [ "login"; "--email"; "op@example.com"; "--password"; "hunter2";
    "--context"; "default" ].

(** What the tool prints on its standard error when the login is
    refused, and the message of the error Node then passes to the
    callback. *)
Definition loginStderr : string := "Error: authentication failed" +:+ nl.

Definition loginFailure : string :=
  "Command failed: /opt/fleet_ctl/fleetctl login --email op@example.com "
    +:+ "--password hunter2 --context default" +:+ nl +:+ loginStderr.

(** ** Vocabulary of the further properties *)

(** The texts a pattern accepts. *)
Inductive Matches : Regex -> string -> Prop :=
| MatchEps : Matches Eps ""
| MatchClass (accepts : ascii -> bool) (c : ascii) :
    accepts c = true -> Matches (Class accepts) (String c "")
| MatchSeq (r1 r2 : Regex) (s1 s2 : string) :
    Matches r1 s1 -> Matches r2 s2 -> Matches (Seq r1 r2) (s1 +:+ s2)
| MatchAltL (r1 r2 : Regex) (s : string) : Matches r1 s -> Matches (Alt r1 r2) s
| MatchAltR (r1 r2 : Regex) (s : string) : Matches r2 s -> Matches (Alt r1 r2) s
| MatchStarNil (r : Regex) : Matches (Star r) ""
| MatchStarCons (r : Regex) (s1 s2 : string) :
    Matches r s1 -> Matches (Star r) s2 -> Matches (Star r) (s1 +:+ s2).

(** Every character of [s] satisfies [p]. *)
Definition allChars (p : ascii -> bool) (s : string) : Prop :=
  forall n c, String.get n s = Some c -> p c = true.

(** The classes of the validation patterns. *)
Definition nameChar (c : ascii) : bool := isAlnum c || oneOf "._-" c.

Definition hostChar (c : ascii) : bool := isAlnum c || oneOf "._- " c.

Definition uuidChar (c : ascii) : bool :=
  inRange "0" "9" c || inRange "a" "f" c || inRange "A" "F" c || oneOf "-" c.

Definition mailChar (c : ascii) : bool := negb (isWhiteSpace c || oneOf "@" c).

(** The last two arguments are [--context] and a context that is not
    empty and holds letters, digits, dots, underscores and hyphens only. *)
Definition checkedContext (args : list string) : Prop :=
  exists front context,
    args = front ++ ["--context"; context]
    /\ context <> "" /\ allChars nameChar context.

Section NormalizerVocabulary2.
Context `{Numbers}.

(** A record holds the four canonical fields as texts. *)
Definition hasCanonicalFields (r : gmap string JsonValue) : Prop :=
  exists id displayName platform status,
    r !! "uuid" = Some (JString id)
    /\ r !! "hostname" = Some (JString displayName)
    /\ r !! "platform" = Some (JString platform)
    /\ r !! "status" = Some (JString status).

(** No selected candidate of [host] has the empty text as its string
    form. *)
Definition selectionsVisible (host : JsonValue) : Prop :=
  forall paths v,
    paths ∈ [idPaths; displayNamePaths; platformPaths; statusPaths] ->
    selected host paths = Some v -> js_String v <> Return "".

End NormalizerVocabulary2.

(** The exception of a value that has no string form. *)
Definition primitiveError : Exception :=
  TypeError "Cannot convert object to primitive value".

(** More values of the worked examples. *)
Definition hostsOutput : string :=
  "{" +:+ quoted "hosts" +:+ ":[{" +:+ quoted "uuid" +:+ ":" +:+ quoted "u1" +:+ "}]}".

Definition hostsAnswer : list (gmap string Ref.Value) :=
  [ {[ "uuid" := JString "u1"; "hostname" := JString "";
       "platform" := JString ""; "status" := JString "" ]} ].

Definition selectedHosts : list Param :=
  [ PString "mac-01"; PString "123e4567-e89b-12d3-a456-426614174000" ].

Definition runCommandArgs : list string :=
  [ "mdm"; "run-command"; "--payload"; "/opt/payloads/lock-device.xml";
    "--hosts"; "mac-01,123e4567-e89b-12d3-a456-426614174000";
    "--context"; "default" ].

(** ** Facts about the string primitives *)

Lemma get_lt (s : string) (n : nat) (c : ascii) :
  String.get n s = Some c -> (n < String.length s)%nat.
Proof.
  revert n; induction s as [|a s IH]; intros [|n] Hn; simpl in *;
    try discriminate; try lia.
  apply IH in Hn. lia.
Qed.

Lemma indexOf_earliest (c : ascii) (s : string) :
  earliest (fun a => Ascii.eqb a c) s (indexOf c s).
Proof.
  induction s as [|a s IH]; simpl.
  - left. split; [reflexivity|]. intros [|j] d Hd; discriminate.
  - destruct (Ascii.eqb a c) eqn:Hac.
    + right. exists 0%nat, a. repeat split; auto. intros j d Hj; lia.
    + destruct IH as [[Hi Hnone]|(n & d & Hi & Hget & Hp & Hbefore)].
      * rewrite Hi. simpl. left. split; [reflexivity|].
        intros [|j] e He; simpl in He.
        -- injection He as <-. exact Hac.
        -- eauto.
      * rewrite Hi.
        assert (Hlt : (Z.of_nat n <? 0)%Z = false) by (apply Z.ltb_ge; lia).
        rewrite Hlt. right. exists (S n), d. repeat split; auto.
        -- lia.
        -- intros [|j] e Hj He; simpl in He.
           ++ injection He as <-. exact Hac.
           ++ apply (Hbefore j); [lia|exact He].
Qed.

Lemma lastIndexOf_latest (c : ascii) (s : string) :
  latest (fun a => Ascii.eqb a c) s (lastIndexOf c s).
Proof.
  induction s as [|a s IH]; simpl.
  - left. split; [reflexivity|]. intros [|j] d Hd; discriminate.
  - destruct IH as [[Hi Hnone]|(n & d & Hi & Hget & Hp & Hafter)].
    + rewrite Hi. simpl. destruct (Ascii.eqb a c) eqn:Hac.
      * right. exists 0%nat, a. repeat split; auto.
        intros [|j] e Hj He; [lia|]. simpl in He. eauto.
      * left. split; [reflexivity|].
        intros [|j] e He; simpl in He.
        -- injection He as <-. exact Hac.
        -- eauto.
    + rewrite Hi.
      assert (Hle : (0 <=? Z.of_nat n)%Z = true) by (apply Z.leb_le; lia).
      rewrite Hle. right. exists (S n), d. repeat split; auto.
      * lia.
      * intros [|j] e Hj He; [lia|]. simpl in He.
        apply (Hafter j); [lia|exact He].
Qed.

Lemma earliest_range (p : ascii -> bool) (s : string) (i : Z) :
  earliest p s i -> (-1 <= i < Z.of_nat (String.length s))%Z.
Proof.
  intros [[-> _]|(n & c & -> & Hget & _)]; [lia|].
  apply get_lt in Hget. lia.
Qed.

Lemma latest_range (p : ascii -> bool) (s : string) (i : Z) :
  latest p s i -> (-1 <= i < Z.of_nat (String.length s))%Z.
Proof.
  intros [[-> _]|(n & c & -> & Hget & _)]; [lia|].
  apply get_lt in Hget. lia.
Qed.

(** The first of two kinds of character is the smaller of the two first
    positions, a missing kind leaving the other. *)
Lemma earliest_either (p q : ascii -> bool) (s : string) (i j : Z) :
  earliest p s i -> earliest q s j ->
  earliest (fun c => p c || q c) s
           (if (i <? 0)%Z then j else if (j <? 0)%Z then i else Z.min i j).
Proof.
  intros [[-> Hp]|(n & c & -> & Hn & Hpc & Hpn)]
         [[-> Hq]|(m & d & -> & Hm & Hqd & Hqm)]; simpl.
  - left. split; [reflexivity|]. intros k e He.
    rewrite (Hp k e He), (Hq k e He). reflexivity.
  - right. exists m, d. repeat split; auto.
    + rewrite Hqd. apply orb_true_r.
    + intros k e Hk He. rewrite (Hp k e He), (Hqm k e Hk He). reflexivity.
  - assert (Hlt : (Z.of_nat n <? 0)%Z = false) by (apply Z.ltb_ge; lia).
    rewrite Hlt. right. exists n, c. repeat split; auto.
    + rewrite Hpc. reflexivity.
    + intros k e Hk He. rewrite (Hpn k e Hk He), (Hq k e He). reflexivity.
  - assert (Hn0 : (Z.of_nat n <? 0)%Z = false) by (apply Z.ltb_ge; lia).
    assert (Hm0 : (Z.of_nat m <? 0)%Z = false) by (apply Z.ltb_ge; lia).
    rewrite Hn0, Hm0.
    destruct (Nat.le_gt_cases n m) as [Hle|Hgt].
    + rewrite Z.min_l by lia. right. exists n, c. repeat split; auto.
      * rewrite Hpc. reflexivity.
      * intros k e Hk He.
        rewrite (Hpn k e Hk He), (Hqm k e ltac:(lia) He). reflexivity.
    + rewrite Z.min_r by lia. right. exists m, d. repeat split; auto.
      * rewrite Hqd. apply orb_true_r.
      * intros k e Hk He.
        rewrite (Hpn k e ltac:(lia) He), (Hqm k e Hk He). reflexivity.
Qed.

Lemma latest_either (p q : ascii -> bool) (s : string) (i j : Z) :
  latest p s i -> latest q s j ->
  latest (fun c => p c || q c) s (Z.max i j).
Proof.
  intros [[-> Hp]|(n & c & -> & Hn & Hpc & Hpn)]
         [[-> Hq]|(m & d & -> & Hm & Hqd & Hqm)].
  - left. split; [reflexivity|]. intros k e He.
    rewrite (Hp k e He), (Hq k e He). reflexivity.
  - rewrite Z.max_r by lia. right. exists m, d. repeat split; auto.
    + rewrite Hqd. apply orb_true_r.
    + intros k e Hk He. rewrite (Hp k e He), (Hqm k e Hk He). reflexivity.
  - rewrite Z.max_l by lia. right. exists n, c. repeat split; auto.
    + rewrite Hpc. reflexivity.
    + intros k e Hk He. rewrite (Hpn k e Hk He), (Hq k e He). reflexivity.
  - destruct (Nat.le_gt_cases n m) as [Hle|Hgt].
    + rewrite Z.max_r by lia. right. exists m, d. repeat split; auto.
      * rewrite Hqd. apply orb_true_r.
      * intros k e Hk He.
        rewrite (Hpn k e ltac:(lia) He), (Hqm k e Hk He). reflexivity.
    + rewrite Z.max_l by lia. right. exists n, c. repeat split; auto.
      * rewrite Hpc. reflexivity.
      * intros k e Hk He.
        rewrite (Hpn k e Hk He), (Hqm k e ltac:(lia) He). reflexivity.
Qed.

Lemma jsonStart_earliest (s : string) : earliest opens s (jsonStart s).
Proof.
  pose proof (indexOf_earliest "[" s) as HA.
  pose proof (indexOf_earliest "{" s) as HO.
  pose proof (earliest_range _ _ _ HA) as RA.
  pose proof (earliest_range _ _ _ HO) as RO.
  pose proof (earliest_either _ _ _ _ _ HA HO) as HE.
  unfold jsonStart. cbn [List.filter].
  destruct (0 <=? indexOf "[" s)%Z eqn:EA; destruct (0 <=? indexOf "{" s)%Z eqn:EO;
    [ apply Z.leb_le in EA | apply Z.leb_le in EA | apply Z.leb_gt in EA
    | apply Z.leb_gt in EA ];
    [ apply Z.leb_le in EO | apply Z.leb_gt in EO | apply Z.leb_le in EO
    | apply Z.leb_gt in EO ]; cbn.
  - destruct (indexOf "[" s <? 0)%Z eqn:E1; [apply Z.ltb_lt in E1; lia|].
    destruct (indexOf "{" s <? 0)%Z eqn:E2; [apply Z.ltb_lt in E2; lia|].
    rewrite Z.min_comm. exact HE.
  - destruct (indexOf "[" s <? 0)%Z eqn:E1; [apply Z.ltb_lt in E1; lia|].
    destruct (indexOf "{" s <? 0)%Z eqn:E2; [|apply Z.ltb_ge in E2; lia].
    exact HE.
  - destruct (indexOf "[" s <? 0)%Z eqn:E1; [|apply Z.ltb_ge in E1; lia].
    exact HE.
  - destruct (indexOf "[" s <? 0)%Z eqn:E1; [|apply Z.ltb_ge in E1; lia].
    replace (indexOf "{" s) with (-1)%Z in HE by lia. exact HE.
Qed.

Lemma jsonEnd_latest (s : string) : latest closes s (jsonEnd s).
Proof.
  unfold jsonEnd.
  apply (latest_either _ _ _ _ _ (lastIndexOf_latest "]" s) (lastIndexOf_latest "}" s)).
Qed.

Lemma slice_substring (s : string) (a b : Z) :
  (0 <= a <= b)%Z -> (b < Z.of_nat (String.length s))%Z ->
  slice s a (b + 1) = substring (Z.to_nat a) (Z.to_nat (b - a + 1)) s.
Proof.
  intros Hab Hb. unfold slice, clamp.
  destruct (a <? 0)%Z eqn:Ea; [apply Z.ltb_lt in Ea; lia|].
  destruct (b + 1 <? 0)%Z eqn:Eb; [apply Z.ltb_lt in Eb; lia|].
  rewrite !Z.min_l by lia. f_equal. lia.
Qed.

(** ** The output interpreter *)

Section InterpreterFacts.
Context `{Json}.

Lemma trimStart_whitespace (s : string) :
  (forall n c, String.get n s = Some c -> isWhiteSpace c = true) -> trimStart s = "".
Proof.
  induction s as [|a s IH]; intros Hall; simpl; [reflexivity|].
  rewrite (Hall 0%nat a eq_refl). apply IH.
  intros n c Hn. exact (Hall (S n) c Hn).
Qed.

(** A text of white space only is empty once trimmed. *)
Lemma trim_whitespace (s : string) :
  (forall n c, String.get n s = Some c -> isWhiteSpace c = true) -> trim s = "".
Proof. intros Hall. unfold trim. rewrite trimStart_whitespace; auto. Qed.

Lemma ndjsonLoop_all (lines : list string) (vs parsedLines : list JsonValue) :
  Forall2 (fun line v => JSON_parse line = Return v) lines vs ->
  ndjsonLoop lines parsedLines = (lines, (true, parsedLines ++ vs)).
Proof.
  intros Hall. revert parsedLines.
  induction Hall as [|line v lines vs Hv _ IH]; intros parsedLines; simpl.
  - rewrite app_nil_r. reflexivity.
  - rewrite Hv, IH, <- app_assoc. reflexivity.
Qed.

Lemma ndjsonLoop_some (lines : list string) (parsedLines : list JsonValue) :
  Exists (fun line => isThrow (JSON_parse line)) lines ->
  (ndjsonLoop lines parsedLines).2.1 = false.
Proof.
  revert parsedLines. induction lines as [|line rest IH]; intros parsedLines Hex.
  - inversion Hex.
  - simpl. destruct (JSON_parse line) as [v|e] eqn:Hline; [|reflexivity].
    assert (Hrest : Exists (fun line => isThrow (JSON_parse line)) rest).
    { inversion Hex as [? ? [e He]|]; subst; [congruence|assumption]. }
    specialize (IH (parsedLines ++ [v]) Hrest).
    destruct (ndjsonLoop rest (parsedLines ++ [v])) as [calls r]. exact IH.
Qed.

Lemma all_lines_decode (lines : list string) :
  Forall (fun line => isReturn (JSON_parse line)) lines ->
  exists vs, Forall2 (fun line v => JSON_parse line = Return v) lines vs.
Proof.
  induction 1 as [|line rest [v Hv] _ [vs IH]].
  - exists []. constructor.
  - exists (v :: vs). constructor; assumption.
Qed.

Lemma ndjsonDecode_all (trimmed : string) (vs : list JsonValue) :
  (1 < length (ndjsonLines trimmed))%nat ->
  Forall2 (fun line v => JSON_parse line = Return v) (ndjsonLines trimmed) vs ->
  ndjsonDecode trimmed = (ndjsonLines trimmed, Some (JArray vs)).
Proof.
  intros Hlen Hall. unfold ndjsonDecode.
  apply Nat.ltb_lt in Hlen. rewrite Hlen.
  rewrite (ndjsonLoop_all _ vs [] Hall). reflexivity.
Qed.

Lemma ndjsonDecode_some (trimmed : string) :
  Exists (fun line => isThrow (JSON_parse line)) (ndjsonLines trimmed) ->
  (ndjsonDecode trimmed).2 = None.
Proof.
  intros Hex. unfold ndjsonDecode.
  destruct (1 <? length (ndjsonLines trimmed))%nat; [|reflexivity].
  pose proof (ndjsonLoop_some _ [] Hex) as Hloop.
  destruct (ndjsonLoop (ndjsonLines trimmed) []) as [calls [valid parsed]].
  simpl in Hloop. subst valid. reflexivity.
Qed.

(** After a failed direct decode the result is that of the two later
    strategies, tried in order. *)
Lemma parsePossibleJson_fallback (rawOutput : string) (firstErr : Exception) :
  trim rawOutput <> "" ->
  JSON_parse (trim rawOutput) = Throw firstErr ->
  parsePossibleJson rawOutput =
    match ndjsonDecode (trim rawOutput) with
    | (calls, Some parsedLines) => (trim rawOutput :: calls, Return parsedLines)
    | (calls, None) =>
        (trim rawOutput :: calls ++ (embeddedDecode (trim rawOutput) firstErr).1,
         (embeddedDecode (trim rawOutput) firstErr).2)
    end.
Proof.
  intros Hne Hfirst. unfold parsePossibleJson.
  destruct (String.eqb_spec (trim rawOutput) "") as [|_]; [contradiction|].
  rewrite Hfirst.
  destruct (ndjsonDecode (trim rawOutput)) as [calls [parsed|]]; [reflexivity|].
  destruct (embeddedDecode (trim rawOutput) firstErr). reflexivity.
Qed.

Lemma embeddedDecode_span (trimmed : string) (firstErr : Exception) :
  (0 <= jsonStart trimmed < jsonEnd trimmed)%Z ->
  embeddedDecode trimmed firstErr =
    parse (substring (Z.to_nat (jsonStart trimmed))
                     (Z.to_nat (jsonEnd trimmed - jsonStart trimmed + 1)) trimmed).
Proof.
  intros [Hge Hlt]. unfold embeddedDecode.
  destruct (Z.leb_spec 0 (jsonStart trimmed)); [|lia].
  destruct (Z.ltb_spec (jsonStart trimmed) (jsonEnd trimmed)); [|lia]. simpl.
  rewrite slice_substring; [reflexivity|lia|].
  apply (latest_range closes). apply jsonEnd_latest.
Qed.

Lemma embeddedDecode_no_span (trimmed : string) (firstErr : Exception) :
  ~ (0 <= jsonStart trimmed < jsonEnd trimmed)%Z ->
  embeddedDecode trimmed firstErr =
    ([], Throw (Error ("No valid JSON found in fleetctl output ("
                         +:+ message firstErr +:+ ")"))).
Proof.
  intros Hno. unfold embeddedDecode.
  destruct (Z.leb_spec 0 (jsonStart trimmed));
    destruct (Z.ltb_spec (jsonStart trimmed) (jsonEnd trimmed)); simpl;
    try reflexivity; lia.
Qed.

(** When no span of brackets is found the exception names the message of
    the direct decode. *)
Lemma parsePossibleJson_no_span (rawOutput : string) (firstErr : Exception) :
  trim rawOutput <> "" ->
  JSON_parse (trim rawOutput) = Throw firstErr ->
  (ndjsonDecode (trim rawOutput)).2 = None ->
  ~ (0 <= jsonStart (trim rawOutput) < jsonEnd (trim rawOutput))%Z ->
  (parsePossibleJson rawOutput).2 =
    Throw (Error ("No valid JSON found in fleetctl output ("
                    +:+ message firstErr +:+ ")")).
Proof.
  intros Hne Hfirst Hnd Hno.
  rewrite (parsePossibleJson_fallback _ _ Hne Hfirst).
  destruct (ndjsonDecode (trim rawOutput)) as [calls [parsed|]]; [discriminate|].
  rewrite embeddedDecode_no_span by assumption. reflexivity.
Qed.

(** When a span is found its decode decides the result: an exception of
    that decode leaves [parsePossibleJson] as it is. *)
Lemma parsePossibleJson_span (rawOutput : string) (firstErr : Exception) :
  trim rawOutput <> "" ->
  JSON_parse (trim rawOutput) = Throw firstErr ->
  (ndjsonDecode (trim rawOutput)).2 = None ->
  (0 <= jsonStart (trim rawOutput) < jsonEnd (trim rawOutput))%Z ->
  (parsePossibleJson rawOutput).2 =
    JSON_parse (slice (trim rawOutput) (jsonStart (trim rawOutput))
                      (jsonEnd (trim rawOutput) + 1)).
Proof.
  intros Hne Hfirst Hnd [Hge Hlt].
  rewrite (parsePossibleJson_fallback _ _ Hne Hfirst).
  destruct (ndjsonDecode (trim rawOutput)) as [calls [parsed|]]; [discriminate|].
  unfold embeddedDecode.
  destruct (Z.leb_spec 0 (jsonStart (trim rawOutput))); [|lia].
  destruct (Z.ltb_spec (jsonStart (trim rawOutput)) (jsonEnd (trim rawOutput))); [|lia].
  reflexivity.
Qed.

End InterpreterFacts.

(** ** The record normaliser *)

Section NormalizerFacts.
Context `{Numbers}.

Lemma bind_Return {A B : Type} (a : A) (f : A -> Completion B) :
  Return a ≫= f = f a.
Proof. reflexivity. Qed.

(** Induction on a value through the elements of arrays. *)
Lemma JsonValue_array_ind (P : JsonValue -> Prop) :
  P JNull -> (forall b, P (JBool b)) -> (forall n, P (JNumber n)) ->
  (forall s, P (JString s)) ->
  (forall items, Forall P items -> P (JArray items)) ->
  (forall fields, P (JObject fields)) ->
  forall v, P v.
Proof.
  intros Hnull Hbool Hnum Hstr Harr Hobj.
  fix IH 1. intros [| b | n | s | items | fields].
  - exact Hnull.
  - apply Hbool.
  - apply Hnum.
  - apply Hstr.
  - apply Harr. induction items as [|item items IHitems].
    + constructor.
    + constructor; [apply IH|exact IHitems].
  - apply Hobj.
Qed.

Lemma plain_js_String (v : JsonValue) : plain v = true -> isReturn (js_String v).
Proof.
  induction v as [| b | n | s | items IH | fields] using JsonValue_array_ind;
    intros Hplain; simpl; try (eexists; reflexivity).
  - simpl in Hplain.
    assert (Hmap : isReturn (mapM (fun item => match item with
                                               | JNull => Return ""
                                               | _ => js_String item
                                               end) items)).
    { induction IH as [|item items Hitem _ IHitems]; simpl.
      - eexists; reflexivity.
      - simpl in Hplain. apply andb_prop in Hplain as [Hi Hrest].
        destruct (IHitems Hrest) as [texts Htexts]. rewrite Htexts.
        destruct (Hitem Hi) as [text Htext].
        destruct item; try (rewrite Htext); eexists; reflexivity. }
    destruct Hmap as [texts Htexts]. rewrite Htexts. eexists; reflexivity.
  - simpl in Hplain. apply bool_decide_eq_true in Hplain. rewrite Hplain.
    eexists; reflexivity.
Qed.

Lemma orElse_pick (a b : option JsonValue) :
  orElse (Return a) (Return b) = Return (pick a b).
Proof. unfold orElse, pick. rewrite bind_Return. destruct (truthyU a); reflexivity. Qed.

Lemma orElse_emptyObject (x : option JsonValue) :
  orElse (Return x) emptyObject = Return (Some (orEmptyObject x)).
Proof.
  unfold orElse, emptyObject, orEmptyObject. rewrite bind_Return.
  destruct x as [v|]; simpl; [destruct (truthy v)|]; reflexivity.
Qed.

Lemma member_orEmptyObject (x : option JsonValue) (key : string) :
  member (Some (orEmptyObject x)) key = Return (x ≫= fun v => field v key).
Proof.
  destruct x as [[| [] | n | s | items | fields]|]; simpl;
    try reflexivity; try (rewrite lookup_empty; reflexivity).
  - destruct (Number_truthy n); simpl; [|rewrite lookup_empty]; reflexivity.
  - destruct (String.eqb s ""); simpl; [rewrite lookup_empty|]; reflexivity.
Qed.

Lemma optMember_field (host : JsonValue) (key : string) :
  optMember (Some host) key = Return (field host key).
Proof. destruct host; reflexivity. Qed.

(** The nested mapping under [name], or the empty mapping. *)
Lemma nested_field (host : JsonValue) (name : string) :
  (if truthy host && typeof_object host
   then orElse (member (Some host) name) emptyObject
   else emptyObject)
  = Return (Some (orEmptyObject (field host name))).
Proof.
  destruct host as [| b | n | s | items | fields]; simpl;
    try reflexivity.
  - rewrite andb_false_r. reflexivity.
  - rewrite andb_false_r. reflexivity.
  - rewrite andb_false_r. reflexivity.
  - apply orElse_emptyObject.
Qed.

Lemma coerce_pick (chosen : option JsonValue) :
  js_StringU (pick (pick chosen (Some (JString ""))) (Some (JString "")))
  = match (if truthyU chosen then chosen else None) with
    | Some v => js_String v
    | None => Return ""
    end.
Proof.
  unfold pick. destruct chosen as [v|]; simpl; [|reflexivity].
  destruct (truthy v) eqn:Hv; simpl; [rewrite Hv|]; reflexivity.
Qed.

Lemma pick_firstNonEmpty (a : option JsonValue) (rest : list (option JsonValue)) :
  (if truthyU (fold_left pick rest a) then fold_left pick rest a else None)
  = firstNonEmpty (a :: rest).
Proof.
  revert a. induction rest as [|b rest IH]; intros a; [reflexivity|].
  cbn [fold_left]. rewrite IH. cbn [firstNonEmpty]. unfold pick.
  destruct (truthyU a) eqn:Ha; [rewrite Ha|]; reflexivity.
Qed.

(** [normalizeHost] selects, for each canonical field, the first
    non-empty candidate along the field's paths, writes its string form,
    or the empty text, over the fields of the host. *)
Lemma normalizeHost_canonical (host : JsonValue) :
  normalizeHost host =
    id ← canonical host idPaths;
    displayName ← canonical host displayNamePaths;
    platform ← canonical host platformPaths;
    status ← canonical host statusPaths;
    Return (record host id displayName platform status).
Proof.
  unfold normalizeHost.
  rewrite !nested_field, !bind_Return.
  rewrite !member_orEmptyObject, orElse_emptyObject, bind_Return.
  rewrite !optMember_field, !member_orEmptyObject.
  unfold emptyString.
  repeat (progress (rewrite ?orElse_pick, ?bind_Return)).
  rewrite !coerce_pick.
  unfold canonical, selected, idPaths, displayNamePaths, platformPaths, statusPaths.
  cbn [List.map]. rewrite <- !pick_firstNonEmpty. reflexivity.
Qed.

(** The shape of the decoded value decides which devices are
    normalised. *)
Lemma extractHostsFromOutput_devices (value : JsonValue) :
  extractHostsFromOutput value = normalizeMany (devices value).
Proof.
  destruct value as [| b | n | s | items | fields]; simpl; try reflexivity.
  - rewrite andb_false_r. reflexivity.
  - rewrite andb_false_r. reflexivity.
  - rewrite andb_false_r. reflexivity.
  - destruct (fields !! "hosts") as [[| b | n | s | items | hosts]|];
      try reflexivity;
      destruct (fields !! "data") as [[| b' | n' | s' | items' | data]|];
      reflexivity.
Qed.

Lemma mapM_Forall2 {A B : Type} (f : A -> Completion B) (Q : A -> B -> Prop)
    (items : list A) :
  Forall (fun x => exists y, f x = Return y /\ Q x y) items ->
  exists ys, mapM f items = Return ys /\ Forall2 Q items ys.
Proof.
  induction 1 as [|x items (y & Hy & HQ) _ (ys & Hys & HQs)]; simpl.
  - exists []. split; [reflexivity|constructor].
  - exists (y :: ys). rewrite Hy, Hys. split; [reflexivity|].
    constructor; assumption.
Qed.

Lemma canonical_returns (host : JsonValue) (paths : list (list string)) :
  match selected host paths with Some v => plain v | None => true end = true ->
  exists text, canonical host paths = Return text
               /\ (selected host paths = None -> text = "").
Proof.
  unfold canonical. destruct (selected host paths) as [v|]; intros Hplain.
  - destruct (plain_js_String v Hplain) as [text Htext].
    exists text. split; [exact Htext|discriminate].
  - exists "". split; reflexivity.
Qed.

Lemma record_normalized (host : JsonValue) (id displayName platform status : string) :
  (selected host idPaths = None -> id = "") ->
  (selected host displayNamePaths = None -> displayName = "") ->
  (selected host platformPaths = None -> platform = "") ->
  (selected host statusPaths = None -> status = "") ->
  normalized host (record host id displayName platform status).
Proof.
  intros Hid Hname Hplatform Hstatus.
  exists id, displayName, platform, status. unfold record.
  repeat split; try assumption.
  - rewrite !lookup_insert_ne by discriminate. apply lookup_insert_eq.
  - rewrite !lookup_insert_ne by discriminate. apply lookup_insert_eq.
  - rewrite !lookup_insert_ne by discriminate. apply lookup_insert_eq.
  - apply lookup_insert_eq.
  - intros key Hkey. unfold canonicalKeys in Hkey.
    rewrite !not_elem_of_cons in Hkey. destruct Hkey as (H1 & H2 & H3 & H4 & _).
    rewrite !lookup_insert_ne by congruence. reflexivity.
Qed.

Lemma normalizeHost_coercible (host : JsonValue) :
  coercible host = true ->
  exists r, normalizeHost host = Return r /\ normalized host r.
Proof.
  unfold coercible. cbn [forallb]. rewrite !andb_true_iff.
  intros (Hid & Hname & Hplatform & Hstatus & _).
  destruct (canonical_returns _ _ Hid) as (id & Eid & Did).
  destruct (canonical_returns _ _ Hname) as (name & Ename & Dname).
  destruct (canonical_returns _ _ Hplatform) as (platform & Eplatform & Dplatform).
  destruct (canonical_returns _ _ Hstatus) as (status & Estatus & Dstatus).
  exists (record host id name platform status). split.
  - rewrite normalizeHost_canonical, Eid, Ename, Eplatform, Estatus. reflexivity.
  - apply record_normalized; assumption.
Qed.

End NormalizerFacts.

(** ** The routes *)

Section RouteFacts.
Context `{Numbers} `{Env}.

Lemma safeArgs_lookup (args : list string) (i : nat) :
  safeArgs args !! i =
    (fun arg => if (0 <? i)%nat
                   && bool_decide (args !! (i - 1)%nat = Some "--password")
                then "******" else arg) <$> args !! i.
Proof. unfold safeArgs. apply list_lookup_imap. Qed.

(** A request turned down for its input gets one answer of status 400
    and nothing else happens. *)
Lemma badRequest_only (msg : string) (effect : Effect) :
  effect ∈ badRequest msg -> effect = Respond 400 (BodyError msg None).
Proof. unfold badRequest. intros Hin. apply list_elem_of_singleton in Hin. exact Hin. Qed.

Lemma api_config_rejects (address context : Param) :
  Param_truthy address = false
  \/ startsWith "http" (Param_String address) = false
  \/ isValidContext context = false ->
  exists msg, api_config address context = badRequest msg.
Proof.
  unfold api_config. intros [Ha|[Ha|Hc]].
  - rewrite Ha. eexists; reflexivity.
  - rewrite Ha, orb_true_r. eexists; reflexivity.
  - destruct (negb (Param_truthy address)
              || negb (startsWith "http" (Param_String address)));
      [eexists; reflexivity|].
    rewrite Hc. eexists; reflexivity.
Qed.

Lemma api_login_rejects (email password context : Param) :
  isValidEmail email = false \/ Param_truthy password = false ->
  exists msg, api_login email password context = badRequest msg.
Proof.
  unfold api_login. intros [He|Hp].
  - rewrite He. eexists; reflexivity.
  - destruct (negb (isValidEmail email)); [eexists; reflexivity|].
    rewrite Hp. eexists; reflexivity.
Qed.

Lemma api_hosts_rejects (queryContext : Param) :
  isValidContext (PString (Param_or queryContext "default")) = false ->
  api_hosts queryContext = badRequest "Invalid context name".
Proof. unfold api_hosts. intros Hc. rewrite Hc. reflexivity. Qed.

Lemma api_run_command_rejects (hosts : option (list Param)) (payload context : Param) :
  hosts = None \/ hosts = Some []
  \/ isValidContext context = false
  \/ (exists listed, hosts = Some listed
                     /\ Exists (fun hostId => isValidHostIdentifier hostId = false) listed)
  \/ Param_truthy payload = false
  \/ isValidFilename (Param_String payload) = false ->
  exists msg, api_run_command hosts payload context = badRequest msg.
Proof.
  unfold api_run_command.
  destruct hosts as [[|hostId listed]|]; try (intros _; eexists; reflexivity).
  intros Hbad.
  destruct (negb (isValidContext context)) eqn:Hc; [eexists; reflexivity|].
  destruct (0 <? length (List.filter (fun hostId => negb (isValidHostIdentifier hostId))
                                     (hostId :: listed)))%nat eqn:Hinvalid;
    [eexists; reflexivity|].
  destruct (negb (Param_truthy payload)
            || negb (isValidFilename (Param_String payload))) eqn:Hp;
    [eexists; reflexivity|].
  exfalso. apply negb_false_iff in Hc.
  apply orb_false_iff in Hp as [Hp1 Hp2].
  apply negb_false_iff in Hp1. apply negb_false_iff in Hp2.
  destruct Hbad as [Hb|[Hb|[Hb|[(l & Hl & Hex)|[Hb|Hb]]]]]; try congruence.
  injection Hl as <-. apply Nat.ltb_ge in Hinvalid.
  apply Exists_exists in Hex as (bad & Hin & Hbadid).
  assert (Hmem : In bad (List.filter (fun hostId => negb (isValidHostIdentifier hostId))
                                     (hostId :: listed))).
  { apply filter_In. split; [apply list_elem_of_In; exact Hin|].
    rewrite Hbadid. reflexivity. }
  destruct (List.filter (fun hostId => negb (isValidHostIdentifier hostId))
                        (hostId :: listed)); [contradiction|simpl in Hinvalid; lia].
Qed.

End RouteFacts.

(** ** The validation patterns *)

Lemma test_Void (s : string) : test Void s = false.
Proof. induction s as [|c s IH]; [reflexivity|exact IH]. Qed.

Lemma test_Star_Class (accepts : ascii -> bool) (s : string) :
  test (Star (Class accepts)) s = true <->
  forall n c, String.get n s = Some c -> accepts c = true.
Proof.
  induction s as [|a s IH]; simpl.
  - split; [intros _ [|n] c Hc; discriminate|reflexivity].
  - destruct (accepts a) eqn:Ha; simpl.
    + rewrite IH. split.
      * intros Hall [|n] c Hc; simpl in Hc; [congruence|eauto].
      * intros Hall n c Hc. exact (Hall (S n) c Hc).
    + rewrite test_Void. split; [discriminate|].
      intros Hall. specialize (Hall 0%nat a eq_refl). congruence.
Qed.

(** A pattern [^[...]+$] accepts the texts that are not empty and hold
    characters of the class only. *)
Lemma test_Plus_Class (accepts : ascii -> bool) (s : string) :
  test (Plus (Class accepts)) s = true <->
  s <> "" /\ forall n c, String.get n s = Some c -> accepts c = true.
Proof.
  destruct s as [|a s]; simpl.
  - split; [discriminate|intros [Hne _]; contradiction].
  - destruct (accepts a) eqn:Ha; simpl.
    + rewrite test_Star_Class. split.
      * intros Hall. split; [discriminate|].
        intros [|n] c Hc; simpl in Hc; [congruence|eauto].
      * intros [_ Hall] n c Hc. exact (Hall (S n) c Hc).
    + rewrite test_Void. split; [discriminate|].
      intros [_ Hall]. specialize (Hall 0%nat a eq_refl). congruence.
Qed.

(** The context check on a text that is not empty. *)
Lemma isValidContext_spec (s : string) :
  s <> "" ->
  (isValidContext (PString s) = true <->
   forall n c, String.get n s = Some c -> isAlnum c || oneOf "._-" c = true).
Proof.
  intros Hne. unfold isValidContext, Param_or. simpl.
  destruct (String.eqb_spec s "") as [|_]; [contradiction|]. simpl.
  rewrite test_Plus_Class. split; [intros [_ Hall]; exact Hall|auto].
Qed.

(** ** Runs on the reference host *)

Example direct_decode :
  @parsePossibleJson _ Ref.json ("{" +:+ quoted "a" +:+ ":1}" +:+ nl)
  = (["{" +:+ quoted "a" +:+ ":1}"], Return (JObject {[ "a" := JNumber one ]})).
Proof. vm_compute. reflexivity. Qed.

Example ndjson_two_documents :
  (@parsePossibleJson _ Ref.json twoDocuments).2
  = Return (JArray [ JObject {[ "a" := JNumber one ]};
                     JObject {[ "b" := JNumber two ]} ]).
Proof. vm_compute. reflexivity. Qed.

(** A line that does not decode sends the text on to the embedded
    extraction, which here finds the span of the first line. *)
Example ndjson_bad_line :
  @parsePossibleJson _ Ref.json documentThenNoise
  = ([ "{" +:+ quoted "a" +:+ ":1}" +:+ nl +:+ "not json";
       "{" +:+ quoted "a" +:+ ":1}"; "not json"; "{" +:+ quoted "a" +:+ ":1}" ],
     Return (JObject {[ "a" := JNumber one ]})).
Proof. vm_compute. reflexivity. Qed.

Example hosts_route_normalizes :
  @api_hosts_done _ Ref.json None
    ("{" +:+ quoted "hosts" +:+ ":[{" +:+ quoted "uuid" +:+ ":" +:+ quoted "u1"
       +:+ "}]}") ""
  = [ Respond 200 (BodyHosts [ {[ "uuid" := JString "u1"; "hostname" := JString "";
                                  "platform" := JString ""; "status" := JString "" ]} ]) ].
Proof. reflexivity. Qed.

Example login_is_logged_masked :
  @runFleetCommand Ref.numbers Ref.env loginArgs
  = [ ConsoleLog ("Executing: /opt/fleet_ctl/fleetctl login --email op@example.com "
                    +:+ "--password ****** --context default");
      ExecFile "/opt/fleet_ctl/fleetctl" loginArgs maxBuffer ].
Proof. reflexivity. Qed.

(** ** The claims *)

(** C1: on the text [a{b}] every strategy fails: the direct decode stops
    at [a], there is one line only, and the span [{b}] does not decode.
    [parsePossibleJson] then throws the exception of the span's decode,
    whose message does not contain the message of the direct decode. *)
Theorem parsePossibleJson_span_error_hides_first_error :
  @JSON_parse _ Ref.json "a{b}"
    = Throw (SyntaxError "Unexpected token a in JSON at position 0")
  /\ (@ndjsonDecode _ Ref.json "a{b}").2 = None
  /\ jsonStart "a{b}" = 1%Z /\ jsonEnd "a{b}" = 3%Z
  /\ @JSON_parse _ Ref.json "{b}"
       = Throw (SyntaxError "Unexpected token b in JSON at position 1")
  /\ @parsePossibleJson _ Ref.json "a{b}"
       = (["a{b}"; "{b}"],
          Throw (SyntaxError "Unexpected token b in JSON at position 1"))
  /\ includes "Unexpected token a in JSON at position 0"
              "Unexpected token b in JSON at position 1" = false.
Proof. repeat split; vm_compute; reflexivity. Qed.

(** C2 as stated fails: the message thrown on the empty text does not
    contain [empty output]; its first letter is a capital. *)
Lemma empty_output_message_is_capitalised :
  ~ (exists e, (@parsePossibleJson _ Ref.json "").2 = Throw e
               /\ includes "empty output" (message e) = true).
Proof.
  intros (e & He & Hc).
  assert (Hrun : (@parsePossibleJson _ Ref.json "").2
                 = Throw (Error "Empty output from fleetctl")) by reflexivity.
  rewrite Hrun in He. injection He as <-.
  assert (Hno : includes "empty output" (message (Error "Empty output from fleetctl"))
                = false) by (vm_compute; reflexivity).
  congruence.
Qed.

(** C2 (amended): on every input that is empty once trimmed,
    [parsePossibleJson] throws an [Error] whose message is
    [Empty output from fleetctl], and hands no text to [JSON.parse]. *)
Theorem parsePossibleJson_empty_output `{Json} (rawOutput : string) :
  trim rawOutput = "" ->
  parsePossibleJson rawOutput = ([], Throw (Error "Empty output from fleetctl")).
Proof. intros Hempty. unfold parsePossibleJson. rewrite Hempty. reflexivity. Qed.

Lemma parsePossibleJson_empty_output_witness :
  trim ("  " +:+ nl) = ""
  /\ @parsePossibleJson _ Ref.json ("  " +:+ nl)
     = ([], Throw (Error "Empty output from fleetctl")).
Proof.
  split; [reflexivity|].
  apply (@parsePossibleJson_empty_output _ Ref.json). reflexivity.
Defined.

(** X24: the masking step. The masked vector has the length of the argument
    vector, holds the mask at every position that follows [--password]
    and the argument itself at every other position; up to the call of
    [execFile], [runFleetCommand] logs the masked vector and hands the
    argument vector, as it was given, to [execFile]. *)
Lemma runFleetCommand_masks_password `{Numbers} `{Env} (args : list string) :
  length (safeArgs args) = length args
  /\ (forall i arg,
        (0 < i)%nat -> args !! (i - 1)%nat = Some "--password" ->
        args !! i = Some arg -> safeArgs args !! i = Some "******")
  /\ (forall i,
        ~ ((0 < i)%nat /\ args !! (i - 1)%nat = Some "--password") ->
        safeArgs args !! i = args !! i)
  /\ runFleetCommand args
     = [ ConsoleLog ("Executing: " +:+ FLEET_CTL_PATH +:+ " "
                       +:+ join " " (safeArgs args));
         ExecFile FLEET_CTL_PATH args maxBuffer ].
Proof.
  split; [apply length_imap|]. split; [|split; [|reflexivity]].
  - intros i arg Hi Hprev Harg. rewrite safeArgs_lookup, Harg. simpl.
    apply Nat.ltb_lt in Hi. rewrite Hi.
    rewrite bool_decide_eq_true_2 by exact Hprev. reflexivity.
  - intros i Hnot. rewrite safeArgs_lookup.
    destruct (args !! i) as [arg|]; [|reflexivity]. simpl.
    destruct (Nat.ltb_spec 0 i) as [Hi|Hi]; [|reflexivity].
    rewrite bool_decide_eq_false_2; [reflexivity|]. intros Hprev. apply Hnot. auto.
Qed.

Lemma runFleetCommand_masks_password_witness :
  (0 < 4)%nat /\ loginArgs !! (4 - 1)%nat = Some "--password"
  /\ loginArgs !! 4%nat = Some "hunter2"
  /\ safeArgs loginArgs !! 4%nat = Some "******".
Proof.
  split; [lia|]. split; [reflexivity|]. split; [reflexivity|].
  apply (proj1 (proj2 (@runFleetCommand_masks_password Ref.numbers Ref.env loginArgs))
           4%nat "hunter2"); [lia|reflexivity|reflexivity].
Defined.

(** C3: the vector of a login is logged masked and executed as given.
    When the tool then refuses the login and exits with code 1, the error
    Node passes to the callback names the command with its arguments as
    they were given, and the callback writes that message, the password
    in it, to the error log: the masked line is not the only line
    logged. *)
Theorem runFleetCommand_failure_logs_password :
  @runFleetCommand Ref.numbers Ref.env loginArgs
  = [ ConsoleLog ("Executing: /opt/fleet_ctl/fleetctl login --email op@example.com "
                    +:+ "--password ****** --context default");
      ExecFile "/opt/fleet_ctl/fleetctl" loginArgs maxBuffer ]
  /\ exithandler "/opt/fleet_ctl/fleetctl" loginArgs 1 loginStderr
     = Some (Error loginFailure)
  /\ @runFleetCommand_done _ Ref.json loginArgs (Some (Error loginFailure)) "" loginStderr
     = [ ConsoleError ("Command failed: " +:+ loginFailure);
         Respond 500 (BodyError "Command execution failed" (Some loginStderr)) ]
  /\ includes "hunter2" ("Command failed: " +:+ loginFailure) = true
  /\ includes "hunter2"
       ("Executing: /opt/fleet_ctl/fleetctl login --email op@example.com "
          +:+ "--password ****** --context default") = false.
Proof. repeat split; vm_compute; reflexivity. Qed.

(** C4: when the direct decode fails and more than one non-blank trimmed
    line remains, the result is the array of the lines' values in line
    order if every line decodes; if some line does not, the NDJSON
    strategy yields nothing and the result is that of the embedded-JSON
    extraction. *)
Theorem ndjson_all_or_nothing `{Json} (rawOutput : string) (firstErr : Exception) :
  trim rawOutput <> "" ->
  JSON_parse (trim rawOutput) = Throw firstErr ->
  (1 < length (ndjsonLines (trim rawOutput)))%nat ->
  (Forall (fun line => isReturn (JSON_parse line)) (ndjsonLines (trim rawOutput)) ->
   exists vs,
     Forall2 (fun line v => JSON_parse line = Return v)
             (ndjsonLines (trim rawOutput)) vs
     /\ (parsePossibleJson rawOutput).2 = Return (JArray vs))
  /\ (Exists (fun line => isThrow (JSON_parse line)) (ndjsonLines (trim rawOutput)) ->
      (ndjsonDecode (trim rawOutput)).2 = None
      /\ (parsePossibleJson rawOutput).2
         = (embeddedDecode (trim rawOutput) firstErr).2).
Proof.
  intros Hne Hfirst Hlen.
  rewrite (parsePossibleJson_fallback _ _ Hne Hfirst). split.
  - intros Hall. destruct (all_lines_decode _ Hall) as [vs Hvs].
    exists vs. split; [exact Hvs|].
    rewrite (ndjsonDecode_all _ vs Hlen Hvs). reflexivity.
  - intros Hex. pose proof (ndjsonDecode_some _ Hex) as Hnone.
    split; [exact Hnone|].
    destruct (ndjsonDecode (trim rawOutput)) as [calls [parsed|]];
      [discriminate|reflexivity].
Qed.

Lemma ndjson_all_or_nothing_witness :
  (trim twoDocuments <> ""
   /\ @JSON_parse _ Ref.json (trim twoDocuments)
      = Throw (SyntaxError "Unexpected token { in JSON at position 8")
   /\ (1 < length (ndjsonLines (trim twoDocuments)))%nat
   /\ exists vs,
       Forall2 (fun line v => @JSON_parse _ Ref.json line = Return v)
               (ndjsonLines (trim twoDocuments)) vs
       /\ (@parsePossibleJson _ Ref.json twoDocuments).2 = Return (JArray vs))
  /\ (trim documentThenNoise <> ""
      /\ @JSON_parse _ Ref.json (trim documentThenNoise)
         = Throw (SyntaxError "Unexpected token n in JSON at position 8")
      /\ (1 < length (ndjsonLines (trim documentThenNoise)))%nat
      /\ (@parsePossibleJson _ Ref.json documentThenNoise).2
         = (@embeddedDecode _ Ref.json (trim documentThenNoise)
              (SyntaxError "Unexpected token n in JSON at position 8")).2).
Proof.
  split.
  - assert (Hne : trim twoDocuments <> "") by (vm_compute; discriminate).
    assert (Hfirst : @JSON_parse _ Ref.json (trim twoDocuments)
                     = Throw (SyntaxError "Unexpected token { in JSON at position 8"))
      by (vm_compute; reflexivity).
    assert (Hlen : (1 < length (ndjsonLines (trim twoDocuments)))%nat)
      by (vm_compute; lia).
    split; [exact Hne|]. split; [exact Hfirst|]. split; [exact Hlen|].
    apply (proj1 (@ndjson_all_or_nothing _ Ref.json twoDocuments _ Hne Hfirst Hlen)).
    assert (Hlines : ndjsonLines (trim twoDocuments)
                     = ["{" +:+ quoted "a" +:+ ":1}"; "{" +:+ quoted "b" +:+ ":2}"])
      by (vm_compute; reflexivity).
    rewrite Hlines.
    constructor; [eexists; vm_compute; reflexivity|].
    constructor; [eexists; vm_compute; reflexivity|].
    constructor.
  - assert (Hne : trim documentThenNoise <> "") by (vm_compute; discriminate).
    assert (Hfirst : @JSON_parse _ Ref.json (trim documentThenNoise)
                     = Throw (SyntaxError "Unexpected token n in JSON at position 8"))
      by (vm_compute; reflexivity).
    assert (Hlen : (1 < length (ndjsonLines (trim documentThenNoise)))%nat)
      by (vm_compute; lia).
    split; [exact Hne|]. split; [exact Hfirst|]. split; [exact Hlen|].
    refine (proj2 (proj2 (@ndjson_all_or_nothing _ Ref.json documentThenNoise _
                            Hne Hfirst Hlen) _)).
    assert (Hlines : ndjsonLines (trim documentThenNoise)
                     = ["{" +:+ quoted "a" +:+ ":1}"; "not json"])
      by (vm_compute; reflexivity).
    rewrite Hlines.
    apply Exists_cons_tl, Exists_cons_hd. eexists; vm_compute; reflexivity.
Defined.

(** C5: when the direct decode and the NDJSON decode both fail, the start
    of the span is the first position holding an opening bracket or
    brace, its end the last position holding a closing one; if the start
    exists and the end lies strictly after it, the text from start to end
    inclusive, and no other, is decoded and its outcome is the result. On
    the text of a warning line followed by [[{"a":1}]] the result is the
    array holding the mapping of [a] to 1. *)
Theorem embedded_extraction_span :
  (forall `{Json} (rawOutput : string) (firstErr : Exception),
     trim rawOutput <> "" ->
     JSON_parse (trim rawOutput) = Throw firstErr ->
     (ndjsonDecode (trim rawOutput)).2 = None ->
     earliest opens (trim rawOutput) (jsonStart (trim rawOutput))
     /\ latest closes (trim rawOutput) (jsonEnd (trim rawOutput))
     /\ ((0 <= jsonStart (trim rawOutput) < jsonEnd (trim rawOutput))%Z ->
         parsePossibleJson rawOutput
         = (trim rawOutput :: (ndjsonDecode (trim rawOutput)).1
              ++ [substring (Z.to_nat (jsonStart (trim rawOutput)))
                            (Z.to_nat (jsonEnd (trim rawOutput)
                                       - jsonStart (trim rawOutput) + 1))
                            (trim rawOutput)],
            JSON_parse (substring (Z.to_nat (jsonStart (trim rawOutput)))
                                  (Z.to_nat (jsonEnd (trim rawOutput)
                                             - jsonStart (trim rawOutput) + 1))
                                  (trim rawOutput)))))
  /\ (@parsePossibleJson _ Ref.json bannerThenArray).2
     = Return (JArray [JObject {[ "a" := JNumber one ]}]).
Proof.
  split.
  - intros HN HJ rawOutput firstErr Hne Hfirst Hnd.
    split; [apply jsonStart_earliest|]. split; [apply jsonEnd_latest|].
    intros Hspan. rewrite (parsePossibleJson_fallback _ _ Hne Hfirst).
    destruct (ndjsonDecode (trim rawOutput)) as [calls [parsed|]];
      [discriminate|].
    rewrite (embeddedDecode_span _ _ Hspan). reflexivity.
  - vm_compute. reflexivity.
Qed.

Lemma embedded_extraction_span_witness :
  trim bannerThenArray <> ""
  /\ @JSON_parse _ Ref.json (trim bannerThenArray)
     = Throw (SyntaxError "Unexpected token W in JSON at position 0")
  /\ (@ndjsonDecode _ Ref.json (trim bannerThenArray)).2 = None
  /\ (0 <= jsonStart (trim bannerThenArray) < jsonEnd (trim bannerThenArray))%Z
  /\ @parsePossibleJson _ Ref.json bannerThenArray
     = ([trim bannerThenArray; "Warning: deprecated"; "[{" +:+ quoted "a" +:+ ":1}]"],
        Return (JArray [JObject {[ "a" := JNumber one ]}])).
Proof.
  assert (Hne : trim bannerThenArray <> "") by (vm_compute; discriminate).
  assert (Hfirst : @JSON_parse _ Ref.json (trim bannerThenArray)
                   = Throw (SyntaxError "Unexpected token W in JSON at position 0"))
    by (vm_compute; reflexivity).
  assert (Hnd : (@ndjsonDecode _ Ref.json (trim bannerThenArray)).2 = None)
    by (vm_compute; reflexivity).
  assert (Hspan : (0 <= jsonStart (trim bannerThenArray)
                   < jsonEnd (trim bannerThenArray))%Z)
    by (split; [apply Z.leb_le|apply Z.ltb_lt]; vm_compute; reflexivity).
  split; [exact Hne|]. split; [exact Hfirst|]. split; [exact Hnd|].
  split; [exact Hspan|].
  rewrite (proj2 (proj2 (proj1 embedded_extraction_span _ Ref.json
                           bannerThenArray _ Hne Hfirst Hnd)) Hspan).
  vm_compute. reflexivity.
Defined.

(** C6 as stated fails: a value that is neither a sequence nor a mapping
    normalises to the empty sequence, not to a sequence of one record. *)
Lemma primitives_normalize_to_nothing :
  @extractHostsFromOutput Ref.numbers JNull = Return []
  /\ @extractHostsFromOutput Ref.numbers (JString "abc") = Return []
  /\ @extractHostsFromOutput Ref.numbers (JNumber one) = Return []
  /\ @extractHostsFromOutput Ref.numbers (JBool true) = Return []
  /\ ~ (exists r, @extractHostsFromOutput Ref.numbers JNull = Return [r]).
Proof.
  repeat split; try reflexivity. intros [r Hr]. discriminate Hr.
Qed.

(** C6 (amended): a sequence is normalised element by element; otherwise
    a mapping whose field [hosts] is a sequence uses that sequence;
    otherwise a mapping whose field [data] is a sequence uses that one;
    otherwise a mapping is taken as a single device and gives the
    sequence of its one record; any other value (a text, a number, a
    boolean, [null]) gives the empty sequence. *)
Theorem shape_resolution `{Numbers} :
  (forall items, extractHostsFromOutput (JArray items) = normalizeMany items)
  /\ (forall fields items,
        fields !! "hosts" = Some (JArray items) ->
        extractHostsFromOutput (JObject fields) = normalizeMany items)
  /\ (forall fields items,
        Array_isArray (fields !! "hosts") = false ->
        fields !! "data" = Some (JArray items) ->
        extractHostsFromOutput (JObject fields) = normalizeMany items)
  /\ (forall fields,
        Array_isArray (fields !! "hosts") = false ->
        Array_isArray (fields !! "data") = false ->
        extractHostsFromOutput (JObject fields)
        = (fun r => [r]) <$> normalizeHost (JObject fields))
  /\ (forall value,
        match value with JArray _ | JObject _ => False | _ => True end ->
        extractHostsFromOutput value = Return []).
Proof.
  repeat split.
  - intros fields items Hhosts.
    rewrite extractHostsFromOutput_devices. simpl. rewrite Hhosts. reflexivity.
  - intros fields items Hhosts Hdata.
    rewrite extractHostsFromOutput_devices. simpl. rewrite Hdata.
    destruct (fields !! "hosts") as [[]|]; try reflexivity; discriminate.
  - intros fields Hhosts Hdata.
    rewrite extractHostsFromOutput_devices. simpl.
    destruct (fields !! "hosts") as [[]|]; try discriminate;
      destruct (fields !! "data") as [[]|]; try discriminate;
      simpl; destruct (normalizeHost (JObject fields)); reflexivity.
  - intros value Hshape. rewrite extractHostsFromOutput_devices.
    destruct value; try contradiction; reflexivity.
Qed.

Lemma shape_resolution_witness :
  ({[ "hosts" := JArray [hostRecord] ]} : gmap string Ref.Value) !! "hosts"
    = Some (JArray [hostRecord])
  /\ @extractHostsFromOutput Ref.numbers hostsEnvelope
     = Return [ {[ "uuid" := JString "u1"; "hostname" := JString "h1";
                   "platform" := JString "darwin"; "status" := JString "online" ]} ].
Proof.
  assert (Hhosts : ({[ "hosts" := JArray [hostRecord] ]} : gmap string Ref.Value)
                     !! "hosts" = Some (JArray [hostRecord]))
    by (vm_compute; reflexivity).
  split; [exact Hhosts|].
  etransitivity;
    [exact (proj1 (proj2 (@shape_resolution Ref.numbers)) _ _ Hhosts)|].
  reflexivity.
Defined.

(** C7 as stated fails twice. A field of the element named like a
    canonical field is written over, not kept: the boolean under
    [status] comes back as the text [true]. And normalisation can throw:
    a candidate holding a mapping with a field of its own named
    [toString] has no string form. *)
Lemma normalization_overwrites_and_can_throw :
  (exists r, @extractHostsFromOutput Ref.numbers (JArray [statusOnly]) = Return [r]
             /\ @field Ref.numbers statusOnly "status" = Some (JBool true)
             /\ r !! "status" = Some (JString "true"))
  /\ @extractHostsFromOutput Ref.numbers (JArray [shadowed])
     = Throw (TypeError "Cannot convert object to primitive value").
Proof.
  split.
  - exists (<["status" := JString "true"]>
              (<["platform" := JString ""]>
                 (<["hostname" := JString ""]>
                    (<["uuid" := JString ""]> (@spread Ref.numbers statusOnly))))).
    repeat split; reflexivity.
  - reflexivity.
Qed.

(** C7 (amended): when the candidates selected for the canonical fields
    have a string form, normalisation returns one record per device of
    the value (none when there is no device); each record holds the four
    canonical fields [uuid], [hostname], [platform] and [status] as
    texts, empty when no candidate is selected, so that an element that
    is no mapping gets the four defaults; and every field of the element
    under another name is kept as it is. *)
Theorem normalization_total_and_additive `{Numbers} (value : JsonValue) :
  forallb coercible (devices value) = true ->
  exists records,
    extractHostsFromOutput value = Return records
    /\ Forall2 normalized (devices value) records.
Proof.
  intros Hall. rewrite extractHostsFromOutput_devices. unfold normalizeMany.
  apply mapM_Forall2. apply Forall_forall. intros host Hin.
  apply normalizeHost_coercible.
  rewrite forallb_forall in Hall. apply Hall. apply list_elem_of_In. exact Hin.
Qed.

Lemma normalization_total_and_additive_witness :
  forallb (@coercible Ref.numbers)
          (@devices Ref.numbers (JArray [specOnly; JNull; JString "ab"])) = true
  /\ exists records,
      @extractHostsFromOutput Ref.numbers (JArray [specOnly; JNull; JString "ab"])
      = Return records
      /\ Forall2 (@normalized Ref.numbers)
                 (@devices Ref.numbers (JArray [specOnly; JNull; JString "ab"]))
                 records.
Proof.
  split; [reflexivity|].
  apply (@normalization_total_and_additive Ref.numbers).
  reflexivity.
Defined.

(** C8: each canonical field is the string form of the first non-empty
    candidate in the field's priority order, or the empty text: the id
    (field [uuid]) from [uuid], [spec.uuid], [spec.hardware_uuid],
    [detail.uuid], [detail.hardware_uuid]; the display name (field
    [hostname]) from [hostname], [spec.hostname], [spec.computer_name],
    [spec.display_name], [detail.hostname]; the platform from [platform],
    [spec.platform], [spec.osquery_platform]; the status from [status],
    [spec.status], [spec.mdm.enrollment_status]. A record holding only
    [spec] with [hardware_uuid] X and [computer_name] Y gets id X,
    display name Y and empty platform and status. *)
Theorem canonical_field_priority :
  (forall `{Numbers} (host : JsonValue),
     let first paths :=
       match firstNonEmpty (List.map (lookupPath host) paths) with
       | Some v => js_String v
       | None => Return ""
       end in
     normalizeHost host =
       id ← first [ ["uuid"]; ["spec"; "uuid"]; ["spec"; "hardware_uuid"];
                    ["detail"; "uuid"]; ["detail"; "hardware_uuid"] ];
       displayName ← first [ ["hostname"]; ["spec"; "hostname"];
                             ["spec"; "computer_name"]; ["spec"; "display_name"];
                             ["detail"; "hostname"] ];
       platform ← first [ ["platform"]; ["spec"; "platform"];
                          ["spec"; "osquery_platform"] ];
       status ← first [ ["status"]; ["spec"; "status"];
                        ["spec"; "mdm"; "enrollment_status"] ];
       Return (<["status" := JString status]>
                 (<["platform" := JString platform]>
                    (<["hostname" := JString displayName]>
                       (<["uuid" := JString id]> (spread host))))))
  /\ @normalizeHost Ref.numbers specOnly
     = Return (<["status" := JString ""]>
                 (<["platform" := JString ""]>
                    (<["hostname" := JString "Y"]>
                       (<["uuid" := JString "X"]> (@spread Ref.numbers specOnly))))).
Proof.
  split.
  - intros HN host first. apply normalizeHost_canonical.
  - reflexivity.
Qed.

(** C9: a login whose address of mail and password are accepted is run
    with whatever context it carries; the same context is turned down by
    the route that sets the configuration. *)
Theorem login_runs_with_invalid_context :
  isValidContext (PString "x; y") = false
  /\ @api_login Ref.numbers Ref.env
       (PString "op@example.com") (PString "hunter2") (PString "x; y")
     = [ ConsoleLog ("Executing: /opt/fleet_ctl/fleetctl login --email op@example.com "
                       +:+ "--password ****** --context x; y");
         ExecFile "/opt/fleet_ctl/fleetctl"
                  [ "login"; "--email"; "op@example.com"; "--password"; "hunter2";
                    "--context"; "x; y" ]
                  maxBuffer ]
  /\ @api_config Ref.numbers Ref.env (PString "http://fleet.example.com") (PString "x; y")
     = badRequest "Invalid context name".
Proof. repeat split; vm_compute; reflexivity. Qed.




(** * Further properties

    Properties of the same code beyond the claims: the interpreter, the
    validation helpers, the normaliser, the routes and the callbacks of
    [execFile]. *)

(** ** More facts about the string primitives *)

Lemma trimEnd_cons (a : ascii) (s : string) :
  trimEnd (String a s) =
    match trimEnd s with
    | EmptyString => if isWhiteSpace a then EmptyString else String a EmptyString
    | kept => String a kept
    end.
Proof. reflexivity. Qed.

Lemma trimEnd_idempotent (s : string) : trimEnd (trimEnd s) = trimEnd s.
Proof.
  induction s as [|a s IH]; [reflexivity|]. rewrite trimEnd_cons.
  destruct (trimEnd s) as [|b kept] eqn:Hkept.
  - destruct (isWhiteSpace a) eqn:Ha; [reflexivity|].
    rewrite trimEnd_cons. simpl. rewrite Ha. reflexivity.
  - rewrite trimEnd_cons, IH. reflexivity.
Qed.

Lemma trimStart_head (s : string) :
  match trimStart s with
  | EmptyString => True
  | String a _ => isWhiteSpace a = false
  end.
Proof.
  induction s as [|a s IH]; simpl; [exact I|].
  destruct (isWhiteSpace a) eqn:Ha; [exact IH|exact Ha].
Qed.

Lemma trimStart_trimEnd (s : string) :
  match s with
  | EmptyString => True
  | String a _ => isWhiteSpace a = false
  end ->
  trimStart (trimEnd s) = trimEnd s.
Proof.
  destruct s as [|a s]; [reflexivity|]. intros Ha. rewrite trimEnd_cons.
  destruct (trimEnd s); rewrite ?Ha; cbn [trimStart]; rewrite Ha; reflexivity.
Qed.

Lemma trim_idempotent (s : string) : trim (trim s) = trim s.
Proof.
  unfold trim. rewrite (trimStart_trimEnd _ (trimStart_head s)).
  apply trimEnd_idempotent.
Qed.

Lemma trimStart_chars (s : string) (n : nat) (c : ascii) :
  String.get n s = Some c ->
  isWhiteSpace c = true \/ exists m, String.get m (trimStart s) = Some c.
Proof.
  revert n. induction s as [|a s IH]; intros n Hn; [destruct n; discriminate|].
  simpl. destruct (isWhiteSpace a) eqn:Ha.
  - destruct n as [|n]; simpl in Hn; [left; congruence|eauto].
  - right. exists n. exact Hn.
Qed.

Lemma trimEnd_chars (s : string) (n : nat) (c : ascii) :
  String.get n s = Some c ->
  isWhiteSpace c = true \/ exists m, String.get m (trimEnd s) = Some c.
Proof.
  revert n. induction s as [|a s IH]; intros n Hn; [destruct n; discriminate|].
  rewrite trimEnd_cons. destruct n as [|n]; simpl in Hn.
  - injection Hn as ->. destruct (trimEnd s); [|right; exists 0%nat; reflexivity].
    destruct (isWhiteSpace c) eqn:Hc; [left; reflexivity|right; exists 0%nat; reflexivity].
  - destruct (IH n Hn) as [Hws|[m Hm]]; [left; exact Hws|]. right.
    destruct (trimEnd s) as [|b kept]; [destruct m; discriminate|].
    exists (S m). exact Hm.
Qed.

(** A character of a text is white space or still there once the text
    is trimmed. *)
Lemma trim_chars (s : string) (n : nat) (c : ascii) :
  String.get n s = Some c ->
  isWhiteSpace c = true \/ exists m, String.get m (trim s) = Some c.
Proof.
  intros Hn. destruct (trimStart_chars s n c Hn) as [Hws|[m Hm]]; [left; exact Hws|].
  apply (trimEnd_chars _ m c Hm).
Qed.

(** Trimming only removes characters. *)
Lemma trimStart_sub (s : string) (n : nat) (c : ascii) :
  String.get n (trimStart s) = Some c -> exists m, String.get m s = Some c.
Proof.
  revert n. induction s as [|a s IH]; intros n Hn; simpl in Hn; [discriminate|].
  destruct (isWhiteSpace a); [|eauto].
  destruct (IH n Hn) as [m Hm]. exists (S m). exact Hm.
Qed.

Lemma trimEnd_sub (s : string) (n : nat) (c : ascii) :
  String.get n (trimEnd s) = Some c -> String.get n s = Some c.
Proof.
  revert n. induction s as [|a s IH]; intros n Hn; [exact Hn|].
  rewrite trimEnd_cons in Hn.
  destruct (trimEnd s) as [|b kept] eqn:Hkept.
  - destruct (isWhiteSpace a); [destruct n; discriminate|].
    destruct n as [|[|n]]; simpl in *; try discriminate. exact Hn.
  - destruct n as [|n]; simpl in *; [exact Hn|]. apply IH. exact Hn.
Qed.

Lemma trim_sub (s : string) (n : nat) (c : ascii) :
  String.get n (trim s) = Some c -> exists m, String.get m s = Some c.
Proof. intros Hn. apply trimEnd_sub in Hn. apply (trimStart_sub _ _ _ Hn). Qed.

Lemma split_no_separator (sep : ascii) (s : string) :
  (forall n c, String.get n s = Some c -> c <> sep) -> split sep s = [s].
Proof.
  induction s as [|a s IH]; intros Hno; simpl; [reflexivity|].
  destruct (Ascii.eqb_spec a sep) as [->|_].
  - exfalso. exact (Hno 0%nat sep eq_refl eq_refl).
  - rewrite IH; [reflexivity|]. intros n c Hn. exact (Hno (S n) c Hn).
Qed.

Lemma split_append (sep : ascii) (s rest : string) :
  (forall n c, String.get n s = Some c -> c <> sep) ->
  split sep (s +:+ String sep rest) = s :: split sep rest.
Proof.
  induction s as [|a s IH]; intros Hno; simpl.
  - rewrite Ascii.eqb_refl. reflexivity.
  - destruct (Ascii.eqb_spec a sep) as [->|_].
    + exfalso. exact (Hno 0%nat sep eq_refl eq_refl).
    + rewrite IH; [reflexivity|]. intros n c Hn. exact (Hno (S n) c Hn).
Qed.

(** Joining with a separator that occurs in no part and splitting again
    gives the parts back. *)
Lemma split_join (sep : ascii) (parts : list string) :
  parts <> [] ->
  Forall (fun part => forall n c, String.get n part = Some c -> c <> sep) parts ->
  split sep (join (String sep "") parts) = parts.
Proof.
  intros Hne Hall. induction Hall as [|part parts Hpart Hparts IH]; [contradiction|].
  destruct parts as [|next parts].
  - simpl. apply split_no_separator. exact Hpart.
  - unfold join in *.
    change (String.concat (String sep "") (part :: next :: parts))
      with (part +:+ String sep (String.concat (String sep "") (next :: parts))).
    rewrite split_append by exact Hpart. rewrite IH; [reflexivity|discriminate].
Qed.

Lemma split_nonempty (sep : ascii) (s : string) : split sep s <> [].
Proof.
  induction s as [|a s IH]; simpl; [discriminate|].
  destruct (Ascii.eqb a sep); [discriminate|].
  destruct (split sep s); [contradiction|discriminate].
Qed.

Lemma substring_length (s : string) (n m : nat) :
  (n + m <= String.length s)%nat -> String.length (substring n m s) = m.
Proof.
  revert n m. induction s as [|a s IH]; intros [|n] [|m] Hle; simpl in *;
    try reflexivity; try lia.
  - rewrite IH by lia. reflexivity.
  - apply IH. lia.
  - apply IH. lia.
Qed.

Lemma substring_prefix_length (s : string) (m : nat) :
  (String.length (substring 0 m s) <= m)%nat.
Proof.
  revert m. induction s as [|a s IH]; intros [|m]; simpl; try lia.
  specialize (IH m). lia.
Qed.

(** ** Further properties of the output interpreter *)

Lemma ndjsonLoop_valid `{Json} (lines calls : list string)
    (parsedLines parsed : list JsonValue) :
  ndjsonLoop lines parsedLines = (calls, (true, parsed)) ->
  calls = lines
  /\ exists vs, parsed = parsedLines ++ vs
                /\ Forall2 (fun line v => JSON_parse line = Return v) lines vs.
Proof.
  revert calls parsedLines. induction lines as [|line rest IH];
    intros calls parsedLines Hloop; simpl in Hloop.
  - injection Hloop as <- <-. split; [reflexivity|].
    exists []. rewrite app_nil_r. split; [reflexivity|constructor].
  - destruct (JSON_parse line) as [v|e] eqn:Hline; [|discriminate].
    destruct (ndjsonLoop rest (parsedLines ++ [v])) as [calls' r] eqn:Hrest.
    injection Hloop as <- ->.
    destruct (IH _ _ Hrest) as (-> & vs & -> & Hvs). split; [reflexivity|].
    exists (v :: vs). rewrite <- app_assoc. split; [reflexivity|].
    constructor; assumption.
Qed.

(** X1: white space around the output never changes the interpretation:
    the trimmed output gives the same result and the same decode calls. *)
Theorem parsePossibleJson_ignores_surrounding_space `{Json} (rawOutput : string) :
  parsePossibleJson (trim rawOutput) = parsePossibleJson rawOutput.
Proof. unfold parsePossibleJson. rewrite trim_idempotent. reflexivity. Qed.

(** X2: the lines the NDJSON strategy decodes are never empty, carry no
    white space at either end, and are no more than the lines of the
    text. *)
Theorem ndjsonLines_are_trimmed (trimmed : string) :
  Forall (fun line => line <> "" /\ trim line = line) (ndjsonLines trimmed)
  /\ (length (ndjsonLines trimmed) <= length (split LF trimmed))%nat.
Proof.
  unfold ndjsonLines. split.
  - apply Forall_forall. intros line Hin. apply list_elem_of_In in Hin.
    apply filter_In in Hin as [Hin Hne]. apply in_map_iff in Hin as (raw & <- & _).
    split; [|apply trim_idempotent].
    intros Hempty. rewrite Hempty in Hne. discriminate.
  - etransitivity; [apply filter_length_le|]. rewrite length_map. lia.
Qed.

(** X3: when the NDJSON strategy returns, its value is an array with one
    element per non-blank line, at least two, each the decode of its
    line, and every line was decoded once, in order. *)
Theorem ndjsonDecode_returns_array `{Json} (trimmed : string) (calls : list string)
    (v : JsonValue) :
  ndjsonDecode trimmed = (calls, Some v) ->
  calls = ndjsonLines trimmed
  /\ exists vs, v = JArray vs
                /\ Forall2 (fun line x => JSON_parse line = Return x)
                           (ndjsonLines trimmed) vs
                /\ (2 <= length vs)%nat.
Proof.
  unfold ndjsonDecode.
  destruct (Nat.ltb_spec 1 (length (ndjsonLines trimmed))) as [Hlen|_]; [|discriminate].
  destruct (ndjsonLoop (ndjsonLines trimmed) []) as [calls' [valid parsed]] eqn:Hloop.
  destruct valid; [|discriminate]. intros Hdecode. injection Hdecode as <- <-.
  destruct (ndjsonLoop_valid _ _ _ _ Hloop) as (-> & vs & -> & Hvs).
  split; [reflexivity|]. exists vs. split; [reflexivity|]. split; [exact Hvs|].
  rewrite <- (Forall2_length _ _ _ Hvs). lia.
Qed.

Lemma ndjsonDecode_returns_array_witness :
  @ndjsonDecode _ Ref.json twoDocuments
    = (ndjsonLines twoDocuments,
       Some (JArray [ JObject {[ "a" := JNumber one ]};
                      JObject {[ "b" := JNumber two ]} ]))
  /\ exists vs, JArray [ JObject {[ "a" := JNumber one ]};
                         JObject {[ "b" := JNumber two ]} ] = JArray vs
                /\ Forall2 (fun line x => @JSON_parse _ Ref.json line = Return x)
                           (ndjsonLines twoDocuments) vs
                /\ (2 <= length vs)%nat.
Proof.
  assert (Hrun : @ndjsonDecode _ Ref.json twoDocuments
                 = (ndjsonLines twoDocuments,
                    Some (JArray [ JObject {[ "a" := JNumber one ]};
                                   JObject {[ "b" := JNumber two ]} ])))
    by (vm_compute; reflexivity).
  split; [exact Hrun|].
  exact (proj2 (@ndjsonDecode_returns_array _ Ref.json _ _ _ Hrun)).
Defined.

Lemma ndjsonLoop_prefix `{Json} (lines : list string) (parsedLines : list JsonValue) :
  exists k, (ndjsonLoop lines parsedLines).1 = take k lines /\ (k <= length lines)%nat.
Proof.
  revert parsedLines. induction lines as [|line rest IH]; intros parsedLines; simpl.
  - exists 0%nat. split; [reflexivity|lia].
  - destruct (JSON_parse line) as [v|e].
    + destruct (IH (parsedLines ++ [v])) as (k & Hcalls & Hk).
      destruct (ndjsonLoop rest (parsedLines ++ [v])) as [calls r]. simpl in *.
      exists (S k). rewrite Hcalls. split; [reflexivity|lia].
    + exists 1%nat. split; [reflexivity|simpl; lia].
Qed.

Lemma ndjsonDecode_prefix `{Json} (trimmed : string) :
  exists k, (ndjsonDecode trimmed).1 = take k (ndjsonLines trimmed)
            /\ (k <= length (ndjsonLines trimmed))%nat
            /\ ((length (ndjsonLines trimmed) <= 1)%nat -> k = 0%nat).
Proof.
  unfold ndjsonDecode.
  destruct (Nat.ltb_spec 1 (length (ndjsonLines trimmed))) as [Hlen|Hlen].
  - destruct (ndjsonLoop_prefix (ndjsonLines trimmed) []) as (k & Hcalls & Hk).
    destruct (ndjsonLoop (ndjsonLines trimmed) []) as [calls [valid parsed]].
    exists k. split; [exact Hcalls|]. split; [exact Hk|lia].
  - exists 0%nat. split; [reflexivity|]. split; [lia|reflexivity].
Qed.

(** X4: [JSON.parse] is called at most once on the whole trimmed text,
    then at most once on each non-blank line, in line order, then at most
    once on the span: the calls are the trimmed text (nothing when it is
    empty), the first [k] lines, and the span or nothing. After an empty
    text or a direct decode that returns there is no further call; no line
    is decoded when there are fewer than two; the span is decoded only
    when its start lies before its end. *)
Theorem parsePossibleJson_calls_once `{Json} (rawOutput : string) :
  exists (k : nat) (span : list string),
    (parsePossibleJson rawOutput).1
    = (if String.eqb (trim rawOutput) "" then [] else [trim rawOutput])
        ++ take k (ndjsonLines (trim rawOutput)) ++ span
    /\ (k <= length (ndjsonLines (trim rawOutput)))%nat
    /\ (span = []
        \/ span = [ slice (trim rawOutput) (jsonStart (trim rawOutput))
                          (jsonEnd (trim rawOutput) + 1) ])
    /\ (trim rawOutput = "" \/ isReturn (JSON_parse (trim rawOutput)) ->
        k = 0%nat /\ span = [])
    /\ ((length (ndjsonLines (trim rawOutput)) <= 1)%nat -> k = 0%nat)
    /\ (span <> [] ->
        (0 <= jsonStart (trim rawOutput) < jsonEnd (trim rawOutput))%Z).
Proof.
  unfold parsePossibleJson.
  destruct (String.eqb_spec (trim rawOutput) "") as [Hempty|Hne].
  { exists 0%nat, []. split; [reflexivity|]. split; [lia|]. split; [left; reflexivity|].
    split; [intros _; split; reflexivity|]. split; [reflexivity|].
    intros Hspan. contradiction. }
  destruct (JSON_parse (trim rawOutput)) as [v|firstErr] eqn:Hfirst.
  { exists 0%nat, []. split; [reflexivity|]. split; [lia|]. split; [left; reflexivity|].
    split; [intros _; split; reflexivity|]. split; [reflexivity|].
    intros Hspan. contradiction. }
  assert (Hnot : trim rawOutput = "" \/ isReturn (Throw firstErr : Completion JsonValue)
                 -> False).
  { intros [Hempty|[v Hv]]; [contradiction|discriminate]. }
  destruct (ndjsonDecode_prefix (trim rawOutput)) as (k & Hcalls & Hk & Hfew).
  destruct (ndjsonDecode (trim rawOutput)) as [calls [parsed|]]; simpl in Hcalls;
    subst calls.
  { exists k, []. rewrite app_nil_r. split; [reflexivity|]. split; [exact Hk|].
    split; [left; reflexivity|]. split; [intros Hyes; destruct (Hnot Hyes)|].
    split; [exact Hfew|]. intros Hspan. contradiction. }
  unfold embeddedDecode, parse.
  destruct (Z.leb_spec 0 (jsonStart (trim rawOutput))) as [Hge|Hlt];
    [destruct (Z.ltb_spec (jsonStart (trim rawOutput)) (jsonEnd (trim rawOutput)))
       as [Hin|Hout]|]; cbn [andb].
  - exists k, [ slice (trim rawOutput) (jsonStart (trim rawOutput))
                      (jsonEnd (trim rawOutput) + 1) ].
    split; [reflexivity|]. split; [exact Hk|]. split; [right; reflexivity|].
    split; [intros Hyes; destruct (Hnot Hyes)|]. split; [exact Hfew|].
    intros _. lia.
  - exists k, []. rewrite app_nil_r. split; [reflexivity|]. split; [exact Hk|].
    split; [left; reflexivity|]. split; [intros Hyes; destruct (Hnot Hyes)|].
    split; [exact Hfew|]. intros Hspan. contradiction.
  - exists k, []. rewrite app_nil_r. split; [reflexivity|]. split; [exact Hk|].
    split; [left; reflexivity|]. split; [intros Hyes; destruct (Hnot Hyes)|].
    split; [exact Hfew|]. intros Hspan. contradiction.
Qed.

(** X5: the span handed to the third decode starts with an opening
    bracket or brace, ends with a closing one and has two characters at
    least. *)
Theorem embedded_candidate_is_bracketed (trimmed : string) :
  (0 <= jsonStart trimmed < jsonEnd trimmed)%Z ->
  exists first last,
    String.get 0 (slice trimmed (jsonStart trimmed) (jsonEnd trimmed + 1)) = Some first
    /\ opens first = true
    /\ String.get (String.length (slice trimmed (jsonStart trimmed) (jsonEnd trimmed + 1)) - 1)
                  (slice trimmed (jsonStart trimmed) (jsonEnd trimmed + 1)) = Some last
    /\ closes last = true
    /\ (2 <= String.length (slice trimmed (jsonStart trimmed) (jsonEnd trimmed + 1)))%nat.
Proof.
  intros [Hge Hlt].
  destruct (jsonStart_earliest trimmed) as [[Hs _]|(a & first & Hs & Hfirst & Hopen & _)];
    [lia|].
  destruct (jsonEnd_latest trimmed) as [[He _]|(b & last & He & Hlast & Hclose & _)];
    [lia|].
  pose proof (get_lt _ _ _ Hlast) as Hb.
  rewrite slice_substring by lia. rewrite Hs, He in *.
  replace (Z.to_nat (Z.of_nat a)) with a by lia.
  replace (Z.to_nat (Z.of_nat b - Z.of_nat a + 1)) with (b - a + 1)%nat by lia.
  rewrite substring_length by lia.
  exists first, last. split; [|split; [exact Hopen|split; [|split; [exact Hclose|lia]]]].
  - rewrite substring_correct1 by lia. exact Hfirst.
  - rewrite substring_correct1 by lia.
    replace (b - a + 1 - 1 + a)%nat with b by lia. exact Hlast.
Qed.

Lemma embedded_candidate_is_bracketed_witness :
  (0 <= jsonStart (trim bannerThenArray) < jsonEnd (trim bannerThenArray))%Z
  /\ exists first last,
      String.get 0 (slice (trim bannerThenArray) (jsonStart (trim bannerThenArray))
                          (jsonEnd (trim bannerThenArray) + 1)) = Some first
      /\ opens first = true
      /\ String.get (String.length (slice (trim bannerThenArray)
                                          (jsonStart (trim bannerThenArray))
                                          (jsonEnd (trim bannerThenArray) + 1)) - 1)
                    (slice (trim bannerThenArray) (jsonStart (trim bannerThenArray))
                           (jsonEnd (trim bannerThenArray) + 1)) = Some last
      /\ closes last = true
      /\ (2 <= String.length (slice (trim bannerThenArray)
                                    (jsonStart (trim bannerThenArray))
                                    (jsonEnd (trim bannerThenArray) + 1)))%nat.
Proof.
  assert (Hspan : (0 <= jsonStart (trim bannerThenArray)
                   < jsonEnd (trim bannerThenArray))%Z)
    by (split; [apply Z.leb_le|apply Z.ltb_lt]; vm_compute; reflexivity).
  split; [exact Hspan|].
  exact (embedded_candidate_is_bracketed (trim bannerThenArray) Hspan).
Defined.

(** X6: [parsePossibleJson] throws nothing but the error of the empty
    output, the error that no JSON was found, which names the message of
    the direct decode and arises only when no span exists, or the
    exception [JSON.parse] throws on the span. *)
Theorem parsePossibleJson_throws_only `{Json} (rawOutput : string) (e : Exception) :
  (parsePossibleJson rawOutput).2 = Throw e ->
  (trim rawOutput = "" /\ e = Error "Empty output from fleetctl")
  \/ exists firstErr,
       JSON_parse (trim rawOutput) = Throw firstErr
       /\ ((~ (0 <= jsonStart (trim rawOutput) < jsonEnd (trim rawOutput))%Z
            /\ e = Error ("No valid JSON found in fleetctl output ("
                            +:+ message firstErr +:+ ")"))
           \/ ((0 <= jsonStart (trim rawOutput) < jsonEnd (trim rawOutput))%Z
               /\ JSON_parse (slice (trim rawOutput) (jsonStart (trim rawOutput))
                                    (jsonEnd (trim rawOutput) + 1)) = Throw e)).
Proof.
  intros Hthrow.
  destruct (String.eqb_spec (trim rawOutput) "") as [Hempty|Hne].
  - left. split; [exact Hempty|].
    unfold parsePossibleJson in Hthrow. rewrite Hempty in Hthrow. simpl in Hthrow.
    congruence.
  - right. destruct (JSON_parse (trim rawOutput)) as [v|firstErr] eqn:Hfirst.
    + unfold parsePossibleJson in Hthrow.
      destruct (String.eqb_spec (trim rawOutput) "") as [|_]; [contradiction|].
      rewrite Hfirst in Hthrow. discriminate.
    + exists firstErr. split; [reflexivity|].
      destruct (ndjsonDecode (trim rawOutput)) as [calls [parsed|]] eqn:Hnd.
      * rewrite (parsePossibleJson_fallback _ _ Hne Hfirst), Hnd in Hthrow. discriminate.
      * assert (Hnone : (ndjsonDecode (trim rawOutput)).2 = None) by (rewrite Hnd; reflexivity).
        destruct (Z.le_gt_cases 0 (jsonStart (trim rawOutput))) as [Hge|Hneg];
          [destruct (Z.lt_ge_cases (jsonStart (trim rawOutput)) (jsonEnd (trim rawOutput)))
            as [Hlt|Hle]|].
        -- right. split; [lia|].
           rewrite (parsePossibleJson_span _ _ Hne Hfirst Hnone) in Hthrow by lia.
           exact Hthrow.
        -- left. split; [lia|].
           rewrite (parsePossibleJson_no_span _ _ Hne Hfirst Hnone) in Hthrow by lia.
           congruence.
        -- left. split; [lia|].
           rewrite (parsePossibleJson_no_span _ _ Hne Hfirst Hnone) in Hthrow by lia.
           congruence.
Qed.

Lemma parsePossibleJson_throws_only_witness :
  (@parsePossibleJson _ Ref.json "not json").2
    = Throw (Error "No valid JSON found in fleetctl output (Unexpected token o in JSON at position 1)")
  /\ ((trim "not json" = ""
       /\ Error "No valid JSON found in fleetctl output (Unexpected token o in JSON at position 1)"
          = Error "Empty output from fleetctl")
      \/ exists firstErr,
           @JSON_parse _ Ref.json (trim "not json") = Throw firstErr
           /\ ((~ (0 <= jsonStart (trim "not json") < jsonEnd (trim "not json"))%Z
                /\ Error "No valid JSON found in fleetctl output (Unexpected token o in JSON at position 1)"
                   = Error ("No valid JSON found in fleetctl output ("
                              +:+ message firstErr +:+ ")"))
               \/ ((0 <= jsonStart (trim "not json") < jsonEnd (trim "not json"))%Z
                   /\ @JSON_parse _ Ref.json
                        (slice (trim "not json") (jsonStart (trim "not json"))
                               (jsonEnd (trim "not json") + 1))
                      = Throw (Error "No valid JSON found in fleetctl output (Unexpected token o in JSON at position 1)")))).
Proof.
  assert (Hrun : (@parsePossibleJson _ Ref.json "not json").2
                 = Throw (Error "No valid JSON found in fleetctl output (Unexpected token o in JSON at position 1)"))
    by (vm_compute; reflexivity).
  split; [exact Hrun|].
  exact (@parsePossibleJson_throws_only _ Ref.json "not json" _ Hrun).
Defined.

(** ** The pattern matcher *)

Lemma append_cons (a : ascii) (s t : string) : String a s +:+ t = String a (s +:+ t).
Proof. reflexivity. Qed.

Lemma append_empty_l (t : string) : "" +:+ t = t.
Proof. reflexivity. Qed.

Lemma append_empty_r (s : string) : s +:+ "" = s.
Proof.
  induction s as [|a s IH]; [reflexivity|]. rewrite append_cons, IH. reflexivity.
Qed.

Lemma append_empty_inv (s1 s2 : string) : s1 +:+ s2 = "" -> s1 = "" /\ s2 = "".
Proof. destruct s1; [rewrite append_empty_l; auto|rewrite append_cons; discriminate]. Qed.

Lemma append_cons_inv (s1 s2 s : string) (c : ascii) :
  s1 +:+ s2 = String c s ->
  (s1 = "" /\ s2 = String c s) \/ exists rest, s1 = String c rest /\ s = rest +:+ s2.
Proof.
  destruct s1 as [|a s1]; [rewrite append_empty_l; left; auto|].
  rewrite append_cons. intros Heq. injection Heq as -> <-. right. eauto.
Qed.

Lemma Matches_Void (s : string) : ~ Matches Void s.
Proof. intros Hm. inversion Hm. Qed.

Lemma Matches_Eps (s : string) : Matches Eps s <-> s = "".
Proof. split; [intros Hm; inversion Hm; reflexivity|intros ->; constructor]. Qed.

Lemma Matches_Seq (r1 r2 : Regex) (s : string) :
  Matches (Seq r1 r2) s <->
  exists s1 s2, s = s1 +:+ s2 /\ Matches r1 s1 /\ Matches r2 s2.
Proof.
  split.
  - intros Hm. inversion Hm; subst. eauto.
  - intros (s1 & s2 & -> & H1 & H2). constructor; assumption.
Qed.

Lemma Matches_Alt (r1 r2 : Regex) (s : string) :
  Matches (Alt r1 r2) s <-> Matches r1 s \/ Matches r2 s.
Proof.
  split.
  - intros Hm. inversion Hm; subst; auto.
  - intros [H1|H2]; [apply MatchAltL|apply MatchAltR]; assumption.
Qed.

Lemma Matches_seq (r1 r2 : Regex) (s : string) :
  Matches (seq r1 r2) s <-> Matches (Seq r1 r2) s.
Proof.
  rewrite Matches_Seq.
  assert (HvL : forall r, Matches Void s <->
                          exists s1 s2, s = s1 +:+ s2 /\ Matches Void s1 /\ Matches r s2).
  { intros r. split; [intros Hm; destruct (Matches_Void _ Hm)|].
    intros (s1 & s2 & _ & Hm & _). destruct (Matches_Void _ Hm). }
  assert (HvR : forall r, Matches Void s <->
                          exists s1 s2, s = s1 +:+ s2 /\ Matches r s1 /\ Matches Void s2).
  { intros r. split; [intros Hm; destruct (Matches_Void _ Hm)|].
    intros (s1 & s2 & _ & _ & Hm). destruct (Matches_Void _ Hm). }
  assert (HeL : forall r, Matches r s <->
                          exists s1 s2, s = s1 +:+ s2 /\ Matches Eps s1 /\ Matches r s2).
  { intros r. split.
    - intros Hm. exists "", s. repeat split; [constructor|exact Hm].
    - intros (s1 & s2 & -> & He & Hm). apply Matches_Eps in He as ->. exact Hm. }
  assert (HeR : forall r, Matches r s <->
                          exists s1 s2, s = s1 +:+ s2 /\ Matches r s1 /\ Matches Eps s2).
  { intros r. split.
    - intros Hm. exists s, "". rewrite append_empty_r. repeat split; [exact Hm|constructor].
    - intros (s1 & s2 & -> & Hm & He). apply Matches_Eps in He as ->.
      rewrite append_empty_r. exact Hm. }
  destruct r1; destruct r2; simpl;
    first [ apply HvL | apply HvR | apply HeL | apply HeR | apply Matches_Seq ].
Qed.

Lemma Matches_alt (r1 r2 : Regex) (s : string) :
  Matches (alt r1 r2) s <-> Matches (Alt r1 r2) s.
Proof.
  rewrite Matches_Alt.
  assert (HL : forall r, Matches r s <-> Matches Void s \/ Matches r s).
  { intros r. split; [auto|]. intros [Hm|Hm]; [destruct (Matches_Void _ Hm)|exact Hm]. }
  assert (HR : forall r, Matches r s <-> Matches r s \/ Matches Void s).
  { intros r. split; [auto|]. intros [Hm|Hm]; [exact Hm|destruct (Matches_Void _ Hm)]. }
  destruct r1; destruct r2; simpl;
    first [ apply HL | apply HR | apply Matches_Alt ].
Qed.

Lemma nullable_Matches (r : Regex) : nullable r = true <-> Matches r "".
Proof.
  induction r as [| | accepts | r1 IH1 r2 IH2 | r1 IH1 r2 IH2 | r IH]; simpl.
  - split; [discriminate|intros Hm; inversion Hm].
  - split; [constructor|reflexivity].
  - split; [discriminate|intros Hm; inversion Hm].
  - rewrite andb_true_iff, IH1, IH2, Matches_Seq. split.
    + intros [H1 H2]. exists "", "". auto.
    + intros (s1 & s2 & Heq & H1 & H2). symmetry in Heq.
      apply append_empty_inv in Heq as [-> ->]. auto.
  - rewrite orb_true_iff, IH1, IH2, Matches_Alt. reflexivity.
  - split; [constructor|reflexivity].
Qed.

Lemma Matches_Star_cons (r : Regex) (c : ascii) (s : string) :
  Matches (Star r) (String c s) ->
  exists s1 s2, s = s1 +:+ s2 /\ Matches r (String c s1) /\ Matches (Star r) s2.
Proof.
  intros Hm. remember (Star r) as star eqn:Hstar. remember (String c s) as text eqn:Htext.
  revert c s Htext. induction Hm as [| | | | | |r0 s1 s2 H1 _ H2 IH2]; intros d t Htext;
    try discriminate.
  injection Hstar as ->.
  apply append_cons_inv in Htext as [[-> ->]|(rest & -> & ->)].
  - apply (IH2 eq_refl d t eq_refl).
  - exists rest, s2. auto.
Qed.

Lemma deriv_Matches (c : ascii) (r : Regex) (s : string) :
  Matches (deriv c r) s <-> Matches r (String c s).
Proof.
  revert s. induction r as [| | accepts | r1 IH1 r2 IH2 | r1 IH1 r2 IH2 | r IH];
    intros s; simpl.
  - split; intros Hm; inversion Hm.
  - split; intros Hm; inversion Hm.
  - destruct (accepts c) eqn:Hc.
    + rewrite Matches_Eps. split; [intros ->; constructor; exact Hc|].
      intros Hm. inversion Hm. reflexivity.
    + split; [intros Hm; inversion Hm|]. intros Hm. inversion Hm. congruence.
  - rewrite Matches_alt, Matches_Alt, Matches_seq, !Matches_Seq. split.
    + intros [(s1 & s2 & -> & H1 & H2)|Hrest].
      * exists (String c s1), s2. split; [reflexivity|]. split; [apply IH1; exact H1|exact H2].
      * destruct (nullable r1) eqn:Hnull; [|destruct (Matches_Void _ Hrest)].
        exists "", (String c s). split; [reflexivity|].
        split; [apply nullable_Matches; exact Hnull|apply IH2; exact Hrest].
    + intros (s1 & s2 & Heq & H1 & H2). symmetry in Heq.
      apply append_cons_inv in Heq as [[-> ->]|(rest & -> & ->)].
      * right. apply nullable_Matches in H1. rewrite H1. apply IH2. exact H2.
      * left. exists rest, s2. split; [reflexivity|]. split; [apply IH1; exact H1|exact H2].
  - rewrite Matches_alt, !Matches_Alt, IH1, IH2. reflexivity.
  - rewrite Matches_seq, Matches_Seq. split.
    + intros (s1 & s2 & -> & H1 & H2).
      apply (MatchStarCons r (String c s1) s2); [apply IH; exact H1|exact H2].
    + intros Hm. apply Matches_Star_cons in Hm as (s1 & s2 & -> & H1 & H2).
      exists s1, s2. split; [reflexivity|]. split; [apply IH; exact H1|exact H2].
Qed.

(** [test] decides the language of the pattern. *)
Lemma test_Matches (r : Regex) (s : string) : test r s = true <-> Matches r s.
Proof.
  revert r. induction s as [|c s IH]; intros r; simpl.
  - apply nullable_Matches.
  - rewrite IH. apply deriv_Matches.
Qed.

Lemma Matches_Plus_Class (accepts : ascii -> bool) (s : string) :
  Matches (Plus (Class accepts)) s <-> s <> "" /\ allChars accepts s.
Proof. rewrite <- test_Matches. apply test_Plus_Class. Qed.

Lemma test_Repeat_Class (accepts : ascii -> bool) (n : nat) (s : string) :
  test (Repeat n (Class accepts)) s = true <->
  String.length s = n /\ allChars accepts s.
Proof.
  rewrite test_Matches. revert s. induction n as [|n IH]; intros s; simpl.
  - rewrite Matches_Eps. split.
    + intros ->. split; [reflexivity|]. intros [|k] c Hc; discriminate.
    + intros [Hlen _]. destruct s; [reflexivity|discriminate].
  - rewrite Matches_Seq. split.
    + intros (s1 & s2 & -> & H1 & H2). inversion H1 as [|p c Hc| | | | |]; subst.
      apply IH in H2 as [Hlen Hall]. rewrite append_cons, append_empty_l. simpl.
      split; [lia|].
      intros [|k] d Hd; simpl in Hd; [congruence|eauto].
    + intros [Hlen Hall]. destruct s as [|c s]; [discriminate|].
      exists (String c ""), s. split; [reflexivity|]. split.
      * constructor. exact (Hall 0%nat c eq_refl).
      * apply IH. split; [simpl in Hlen; lia|].
        intros k d Hd. exact (Hall (S k) d Hd).
Qed.

(** ** Further properties of the validation helpers *)

Lemma includes_pair (a b : ascii) (s : string) (n : nat) :
  String.get n s = Some a -> String.get (S n) s = Some b ->
  includes (String a (String b "")) s = true.
Proof.
  revert s. induction n as [|n IH]; intros s Ha Hb.
  - destruct s as [|x [|y r]]; simpl in Ha, Hb; try discriminate.
    injection Ha as ->. injection Hb as ->.
    cbn [includes String.prefix].
    destruct (Ascii.ascii_dec a a) as [_|Hne]; [|contradiction].
    destruct (Ascii.ascii_dec b b) as [_|Hne]; [|contradiction].
    destruct r; reflexivity.
  - destruct s as [|x s]; [discriminate|].
    cbn [includes]. rewrite (IH s Ha Hb). apply orb_true_r.
Qed.

Lemma Matches_Class_one (k : ascii) (s : string) :
  Matches (Class (oneOf (String k ""))) s <-> s = String k "".
Proof.
  split.
  - intros Hm. inversion Hm as [|p c Hc| | | | |]; subst.
    unfold oneOf in Hc. simpl in Hc. rewrite orb_false_r in Hc.
    apply Ascii.eqb_eq in Hc as ->. reflexivity.
  - intros ->. constructor. unfold oneOf. simpl. rewrite Ascii.eqb_refl. reflexivity.
Qed.

Lemma uuidChar_hostChar (c : ascii) : uuidChar c = true -> hostChar c = true.
Proof.
  unfold uuidChar, hostChar. intros Huuid.
  destruct (oneOf "-" c) eqn:Hdash.
  - unfold oneOf in Hdash. cbn in Hdash. rewrite orb_false_r in Hdash.
    apply Ascii.eqb_eq in Hdash as ->. vm_compute. reflexivity.
  - rewrite orb_false_r in Huuid. apply orb_true_iff. left.
    unfold isAlnum, inRange in *.
    change (N_of_ascii "0") with 48%N in *. change (N_of_ascii "9") with 57%N in *.
    change (N_of_ascii "a") with 97%N in *. change (N_of_ascii "f") with 102%N in *.
    change (N_of_ascii "z") with 122%N. change (N_of_ascii "A") with 65%N in *.
    change (N_of_ascii "F") with 70%N in *. change (N_of_ascii "Z") with 90%N.
    rewrite !orb_true_iff, !andb_true_iff, !N.leb_le in *. lia.
Qed.

(** X7: a payload name the check accepts is not empty, holds letters,
    digits, dots, underscores and hyphens only, so no slash and no
    backslash, and never two dots in a row. *)
Theorem isValidFilename_confines (str : string) :
  isValidFilename str = true ->
  str <> "" /\ allChars nameChar str
  /\ (forall n c, String.get n str = Some c -> c <> "/"%char /\ c <> "\"%char)
  /\ (forall n, ~ (String.get n str = Some "."%char
                   /\ String.get (S n) str = Some "."%char)).
Proof.
  unfold isValidFilename. rewrite andb_true_iff, negb_true_iff.
  intros [Hpattern Hdots]. apply test_Plus_Class in Hpattern as [Hne Hall].
  split; [exact Hne|]. split; [exact Hall|]. split.
  - intros n c Hc. specialize (Hall n c Hc).
    split; intros ->; vm_compute in Hall; discriminate.
  - intros n [H1 H2]. rewrite (includes_pair _ _ _ _ H1 H2) in Hdots. discriminate.
Qed.

Lemma isValidFilename_confines_witness :
  isValidFilename "lock-device.xml" = true
  /\ "lock-device.xml" <> ""
  /\ allChars nameChar "lock-device.xml".
Proof.
  assert (Hvalid : isValidFilename "lock-device.xml" = true) by (vm_compute; reflexivity).
  split; [exact Hvalid|].
  pose proof (isValidFilename_confines "lock-device.xml" Hvalid) as (Hne & Hall & _).
  split; [exact Hne|exact Hall].
Defined.

(** X8: the UUID check accepts exactly the texts of 36 characters taken
    among the hexadecimal digits and the hyphen, wherever the hyphens
    stand. *)
Theorem isValidUUID_spec (str : string) :
  isValidUUID str = true <-> String.length str = 36%nat /\ allChars uuidChar str.
Proof. unfold isValidUUID. apply test_Repeat_Class. Qed.

Lemma valid_host_chars (s : string) :
  isValidHostIdentifier (PString s) = true ->
  trim s <> "" /\ allChars hostChar (trim s).
Proof.
  simpl. destruct (String.eqb_spec (trim s) "") as [Hempty|Hne]; [discriminate|].
  destruct (isValidUUID (trim s)) eqn:Huuid.
  - intros _. split; [exact Hne|]. unfold isValidUUID in Huuid.
    apply test_Repeat_Class in Huuid as [_ Hall].
    intros n c Hc. apply uuidChar_hostChar. exact (Hall n c Hc).
  - rewrite test_Plus_Class. intros [_ Hall]. auto.
Qed.

(** X9: a host identifier passes exactly when it is a text whose trimmed
    form is not empty and holds letters, digits, dots, underscores,
    hyphens and spaces only; what the UUID branch accepts the general
    pattern accepts too, and a value that is no text never passes. *)
Theorem isValidHostIdentifier_spec (str : Param) :
  isValidHostIdentifier str = true <->
  exists s, str = PString s /\ trim s <> "" /\ allChars hostChar (trim s).
Proof.
  split.
  - destruct str as [| |s]; try discriminate. intros Hvalid.
    exists s. split; [reflexivity|]. apply valid_host_chars. exact Hvalid.
  - intros (s & -> & Hne & Hall). simpl.
    destruct (String.eqb_spec (trim s) "") as [|_]; [contradiction|].
    destruct (isValidUUID (trim s)); [reflexivity|].
    apply test_Plus_Class. auto.
Qed.

(** X10: the mail check accepts exactly the texts made of three words
    joined by an at sign and a dot, a word being not empty and free of
    white space and at signs; an accepted address holds no white space. *)
Theorem isValidEmail_spec (str : Param) :
  (isValidEmail str = true <->
   exists name domain suffix,
     Param_String str = name +:+ "@" +:+ domain +:+ "." +:+ suffix
     /\ (name <> "" /\ allChars mailChar name)
     /\ (domain <> "" /\ allChars mailChar domain)
     /\ (suffix <> "" /\ allChars mailChar suffix))
  /\ (isValidEmail str = true ->
      allChars (fun c => negb (isWhiteSpace c)) (Param_String str)).
Proof.
  assert (Hiff : isValidEmail str = true <->
                 exists name domain suffix,
                   Param_String str = name +:+ "@" +:+ domain +:+ "." +:+ suffix
                   /\ (name <> "" /\ allChars mailChar name)
                   /\ (domain <> "" /\ allChars mailChar domain)
                   /\ (suffix <> "" /\ allChars mailChar suffix)).
  { unfold isValidEmail. rewrite test_Matches. split.
    - intros Hm.
      apply Matches_Seq in Hm as (name & r1 & -> & Hname & Hm).
      apply Matches_Seq in Hm as (at_ & r2 & -> & Hat & Hm).
      apply Matches_Seq in Hm as (domain & r3 & -> & Hdomain & Hm).
      apply Matches_Seq in Hm as (dot & suffix & -> & Hdot & Hsuffix).
      apply Matches_Class_one in Hat as ->. apply Matches_Class_one in Hdot as ->.
      apply Matches_Plus_Class in Hname, Hdomain, Hsuffix.
      exists name, domain, suffix. auto.
    - intros (name & domain & suffix & -> & Hname & Hdomain & Hsuffix).
      apply MatchSeq; [apply Matches_Plus_Class; exact Hname|].
      apply MatchSeq; [apply Matches_Class_one; reflexivity|].
      apply MatchSeq; [apply Matches_Plus_Class; exact Hdomain|].
      apply MatchSeq; [apply Matches_Class_one; reflexivity|].
      apply Matches_Plus_Class; exact Hsuffix. }
  split; [exact Hiff|].
  intros Hvalid. apply Hiff in Hvalid
    as (name & domain & suffix & -> & [_ Hname] & [_ Hdomain] & [_ Hsuffix]).
  assert (Hword : forall w, allChars mailChar w ->
                            allChars (fun c => negb (isWhiteSpace c)) w).
  { intros w Hw n c Hc. specialize (Hw n c Hc). unfold mailChar in Hw.
    rewrite negb_orb in Hw. apply andb_true_iff in Hw as [Hws _]. exact Hws. }
  assert (Happ : forall u v, allChars (fun c => negb (isWhiteSpace c)) u ->
                             allChars (fun c => negb (isWhiteSpace c)) v ->
                             allChars (fun c => negb (isWhiteSpace c)) (u +:+ v)).
  { intros u v Hu Hv. induction u as [|a u IH]; [exact Hv|].
    rewrite append_cons. intros [|n] c Hc; simpl in Hc.
    - injection Hc as <-. exact (Hu 0%nat a eq_refl).
    - apply (IH (fun k d Hd => Hu (S k) d Hd) n c Hc). }
  assert (Hone : forall k, isWhiteSpace k = false ->
                           allChars (fun c => negb (isWhiteSpace c)) (String k "")).
  { intros k Hk [|n] c Hc; simpl in Hc; [|destruct n; discriminate].
    injection Hc as <-. rewrite Hk. reflexivity. }
  repeat apply Happ; auto.
Qed.

Lemma default_nameChars : allChars nameChar "default".
Proof.
  assert (Htest : test (Plus (Class nameChar)) "default" = true) by (vm_compute; reflexivity).
  apply test_Plus_Class in Htest as [_ Hall]. exact Hall.
Qed.

(** The context handed to the tool after the context check. *)
Lemma Param_or_checked (context : Param) :
  isValidContext context = true ->
  Param_or context "default" <> "" /\ allChars nameChar (Param_or context "default").
Proof.
  unfold isValidContext. rewrite test_Plus_Class. auto.
Qed.

(** X11: the hostname check accepts exactly the values whose text is not
    empty and holds letters, digits, dots and hyphens only; the text of
    a missing value is [undefined] and that of [null] is [null], so both
    pass. *)
Theorem isValidHostname_spec (str : Param) :
  (isValidHostname str = true <->
   Param_String str <> ""
   /\ allChars (fun c => isAlnum c || oneOf ".-" c) (Param_String str))
  /\ isValidHostname PUndefined = true /\ isValidHostname PNull = true.
Proof.
  split; [unfold isValidHostname; apply test_Plus_Class|].
  split; vm_compute; reflexivity.
Qed.

(** X12: the context check accepts a missing, [null] or empty context,
    and a text that is not empty exactly when it holds letters, digits,
    dots, underscores and hyphens only. *)
Theorem isValidContext_accepts (str : Param) :
  isValidContext str = true <->
  Param_truthy str = false \/ allChars nameChar (Param_String str).
Proof.
  destruct str as [| |s].
  - split; [left; reflexivity|intros _; vm_compute; reflexivity].
  - split; [left; reflexivity|intros _; vm_compute; reflexivity].
  - destruct (String.eqb_spec s "") as [->|Hne].
    + split; [left; reflexivity|intros _; vm_compute; reflexivity].
    + rewrite (isValidContext_spec s Hne). simpl.
      destruct (String.eqb_spec s "") as [|_]; [contradiction|]. simpl.
      split; [auto|]. intros [Hfalse|Hall]; [discriminate|exact Hall].
Qed.

(** ** Further properties of the record normaliser *)

Section NormalizerMore.
Context `{Numbers}.

Lemma bind_Throw {A B : Type} (e : Exception) (f : A -> Completion B) :
  Throw e ≫= f = Throw e.
Proof. reflexivity. Qed.

Lemma mapM_Throw {A B : Type} (f : A -> Completion B) (items : list A) (e : Exception) :
  mapM f items = Throw e -> exists x, x ∈ items /\ f x = Throw e.
Proof.
  induction items as [|x items IH]; simpl; [discriminate|].
  destruct (f x) as [y|e'] eqn:Hx.
  - rewrite bind_Return. destruct (mapM f items) as [ys|e'']; [discriminate|].
    rewrite bind_Throw. intros Heq. destruct (IH Heq) as (x' & Hin & Hx').
    exists x'. split; [apply list_elem_of_further; exact Hin|exact Hx'].
  - rewrite bind_Throw. intros Heq. exists x. split; [apply list_elem_of_here|].
    rewrite Hx. congruence.
Qed.

Lemma js_String_Throw (v : JsonValue) (e : Exception) :
  js_String v = Throw e -> e = primitiveError.
Proof.
  induction v as [| b | n | s | items IH | fields] using JsonValue_array_ind;
    simpl; try discriminate.
  - destruct (mapM _ items) as [texts|e'] eqn:Hmap; [discriminate|].
    intros Heq. injection Heq as ->.
    apply mapM_Throw in Hmap as (item & Hin & Hitem).
    rewrite Forall_forall in IH. specialize (IH item Hin).
    destruct item; try discriminate; apply IH; exact Hitem.
  - destruct (fields !! "toString"); [|discriminate]. intros Heq.
    injection Heq as <-. reflexivity.
Qed.

Lemma canonical_Throw (host : JsonValue) (paths : list (list string)) (e : Exception) :
  canonical host paths = Throw e -> e = primitiveError.
Proof.
  unfold canonical. destruct (selected host paths) as [v|]; [|discriminate].
  apply js_String_Throw.
Qed.

(** What [normalizeHost] returns is the record of the host for some four
    texts, each the canonical text of its field. *)
Lemma normalizeHost_Return (host : JsonValue) (r : gmap string JsonValue) :
  normalizeHost host = Return r ->
  exists id displayName platform status,
    canonical host idPaths = Return id
    /\ canonical host displayNamePaths = Return displayName
    /\ canonical host platformPaths = Return platform
    /\ canonical host statusPaths = Return status
    /\ r = record host id displayName platform status.
Proof.
  rewrite normalizeHost_canonical.
  destruct (canonical host idPaths) as [id|]; [|discriminate].
  destruct (canonical host displayNamePaths) as [name|]; [|discriminate].
  destruct (canonical host platformPaths) as [platform|]; [|discriminate].
  destruct (canonical host statusPaths) as [status|]; [|discriminate].
  rewrite !bind_Return. intros Heq. injection Heq as <-.
  exists id, name, platform, status. auto.
Qed.

Lemma normalizeHost_Throw (host : JsonValue) (e : Exception) :
  normalizeHost host = Throw e -> e = primitiveError.
Proof.
  rewrite normalizeHost_canonical.
  destruct (canonical host idPaths) as [id|e1] eqn:H1;
    [|intros Heq; injection Heq as <-; exact (canonical_Throw _ _ _ H1)].
  destruct (canonical host displayNamePaths) as [name|e2] eqn:H2;
    [|intros Heq; injection Heq as <-; exact (canonical_Throw _ _ _ H2)].
  destruct (canonical host platformPaths) as [platform|e3] eqn:H3;
    [|intros Heq; injection Heq as <-; exact (canonical_Throw _ _ _ H3)].
  destruct (canonical host statusPaths) as [status|e4] eqn:H4;
    [|intros Heq; injection Heq as <-; exact (canonical_Throw _ _ _ H4)].
  discriminate.
Qed.

Lemma record_hasCanonicalFields (host : JsonValue) (id name platform status : string) :
  hasCanonicalFields (record host id name platform status).
Proof.
  exists id, name, platform, status. unfold record. repeat split.
  - rewrite !lookup_insert_ne by discriminate. apply lookup_insert_eq.
  - rewrite !lookup_insert_ne by discriminate. apply lookup_insert_eq.
  - rewrite !lookup_insert_ne by discriminate. apply lookup_insert_eq.
  - apply lookup_insert_eq.
Qed.

Lemma mapM_Return {A B : Type} (f : A -> Completion B) (items : list A) (ys : list B) :
  mapM f items = Return ys -> Forall2 (fun x y => f x = Return y) items ys.
Proof.
  revert ys. induction items as [|x items IH]; intros ys; simpl.
  - intros Heq. injection Heq as <-. constructor.
  - destruct (f x) as [y|e] eqn:Hx; [|discriminate]. rewrite bind_Return.
    destruct (mapM f items) as [ys'|e]; [|discriminate]. rewrite bind_Return.
    intros Heq. injection Heq as <-. constructor; [exact Hx|apply IH; reflexivity].
Qed.

Lemma extractHostsFromOutput_Return (value : JsonValue)
    (records : list (gmap string JsonValue)) :
  extractHostsFromOutput value = Return records ->
  Forall2 (fun host r => normalizeHost host = Return r) (devices value) records.
Proof. rewrite extractHostsFromOutput_devices. apply mapM_Return. Qed.

Lemma extractHostsFromOutput_Throw (value : JsonValue) (e : Exception) :
  extractHostsFromOutput value = Throw e -> e = primitiveError.
Proof.
  rewrite extractHostsFromOutput_devices. unfold normalizeMany. intros Hthrow.
  apply mapM_Throw in Hthrow as (host & _ & Hhost).
  exact (normalizeHost_Throw _ _ Hhost).
Qed.

Lemma reselect (top : option JsonValue) (rest : list (option JsonValue)) (text : string) :
  match firstNonEmpty (top :: rest) with
  | Some v => js_String v
  | None => Return ""
  end = Return text ->
  (forall v, firstNonEmpty (top :: rest) = Some v -> js_String v <> Return "") ->
  match firstNonEmpty (Some (JString text) :: rest) with
  | Some v => js_String v
  | None => Return ""
  end = Return text.
Proof.
  intros Hfirst Hvisible. cbn [firstNonEmpty truthyU truthy].
  destruct (String.eqb_spec text "") as [->|Hne]; [|reflexivity]. simpl.
  destruct (firstNonEmpty (top :: rest)) as [v|] eqn:Hsel.
  - exfalso. exact (Hvisible v eq_refl Hfirst).
  - cbn [firstNonEmpty] in Hsel.
    destruct (truthyU top) eqn:Htop; [subst top; discriminate Htop|].
    rewrite Hsel. reflexivity.
Qed.

Lemma record_lookup_other (host : JsonValue) (id name platform status key : string) :
  key ∉ canonicalKeys ->
  record host id name platform status !! key = spread host !! key.
Proof.
  unfold canonicalKeys, record. rewrite !not_elem_of_cons.
  intros (H1 & H2 & H3 & H4 & _). rewrite !lookup_insert_ne by congruence. reflexivity.
Qed.

Lemma lookupPath_through (fields again : gmap string JsonValue) (path : list string) :
  (exists key more, path = key :: more /\ again !! key = fields !! key) ->
  lookupPath (JObject again) path = lookupPath (JObject fields) path.
Proof.
  intros (key & more & -> & Hkey). unfold lookupPath. cbn [fold_left].
  change (Some (JObject again) ≫= (fun w => field w key)) with (again !! key).
  change (Some (JObject fields) ≫= (fun w => field w key)) with (fields !! key).
  rewrite Hkey. reflexivity.
Qed.

Lemma canonical_again (fields again : gmap string JsonValue) (top text : string)
    (tail : list (list string)) :
  again !! top = Some (JString text) ->
  Forall (fun path => exists key more, path = key :: more
                                        /\ again !! key = fields !! key) tail ->
  canonical (JObject fields) ([top] :: tail) = Return text ->
  (forall v, selected (JObject fields) ([top] :: tail) = Some v ->
             js_String v <> Return "") ->
  canonical (JObject again) ([top] :: tail) = Return text.
Proof.
  intros Htop Htail Hfirst Hvisible. unfold canonical, selected in *.
  cbn [List.map] in *.
  assert (Hsame : List.map (lookupPath (JObject again)) tail
                  = List.map (lookupPath (JObject fields)) tail).
  { clear Hfirst Hvisible.
    induction Htail as [|path tail Hpath _ IH]; [reflexivity|].
    cbn [List.map]. rewrite IH, (lookupPath_through _ _ _ Hpath). reflexivity. }
  rewrite Hsame.
  change (lookupPath (JObject again) [top]) with (again !! top).
  change (lookupPath (JObject fields) [top]) with (fields !! top) in Hfirst, Hvisible.
  rewrite Htop. apply (reselect (fields !! top)); assumption.
Qed.

End NormalizerMore.

(** X13: normalisation throws nothing but the TypeError of a value that
    has no string form, and it does so only when one of the devices does. *)
Theorem extractHostsFromOutput_throws_only `{Numbers} (value : JsonValue)
    (e : Exception) :
  extractHostsFromOutput value = Throw e ->
  e = primitiveError
  /\ exists host, host ∈ devices value /\ normalizeHost host = Throw e.
Proof.
  rewrite extractHostsFromOutput_devices. unfold normalizeMany. intros Hthrow.
  apply mapM_Throw in Hthrow as (host & Hin & Hhost).
  split; [exact (normalizeHost_Throw _ _ Hhost)|]. exists host. auto.
Qed.

Lemma extractHostsFromOutput_throws_only_witness :
  @extractHostsFromOutput Ref.numbers (JArray [specOnly; shadowed]) = Throw primitiveError
  /\ exists host, host ∈ @devices Ref.numbers (JArray [specOnly; shadowed])
                  /\ @normalizeHost Ref.numbers host = Throw primitiveError.
Proof.
  assert (Hrun : @extractHostsFromOutput Ref.numbers (JArray [specOnly; shadowed])
                 = Throw primitiveError) by reflexivity.
  split; [exact Hrun|].
  exact (proj2 (@extractHostsFromOutput_throws_only Ref.numbers _ _ Hrun)).
Defined.

(** X14: normalising the record of a mapping again gives the same
    record, provided no candidate selected the first time has the empty
    text as its string form. *)
Theorem normalizeHost_idempotent `{Numbers} (fields r : gmap string JsonValue) :
  normalizeHost (JObject fields) = Return r ->
  selectionsVisible (JObject fields) ->
  normalizeHost (JObject r) = Return r.
Proof.
  intros Hret Hvisible.
  apply normalizeHost_Return in Hret
    as (id & name & platform & status & Hid & Hname & Hplatform & Hstatus & ->).
  set (again := record (JObject fields) id name platform status).
  assert (Hother : forall key, key ∉ canonicalKeys -> again !! key = fields !! key).
  { intros key Hkey. unfold again. rewrite record_lookup_other by exact Hkey. reflexivity. }
  assert (Hspec : again !! "spec" = fields !! "spec")
    by (apply Hother; unfold canonicalKeys; rewrite !not_elem_of_cons;
        repeat split; try discriminate; apply not_elem_of_nil).
  assert (Hdetail : again !! "detail" = fields !! "detail")
    by (apply Hother; unfold canonicalKeys; rewrite !not_elem_of_cons;
        repeat split; try discriminate; apply not_elem_of_nil).
  destruct (record_hasCanonicalFields (JObject fields) id name platform status)
    as (id' & name' & platform' & status' & Lid & Lname & Lplatform & Lstatus).
  fold again in Lid, Lname, Lplatform, Lstatus.
  assert (Eid : id' = id /\ name' = name /\ platform' = platform /\ status' = status).
  { unfold again, record in Lid, Lname, Lplatform, Lstatus.
    rewrite !lookup_insert_ne in Lid by discriminate. rewrite lookup_insert_eq in Lid.
    rewrite !lookup_insert_ne in Lname by discriminate. rewrite lookup_insert_eq in Lname.
    rewrite !lookup_insert_ne in Lplatform by discriminate.
    rewrite lookup_insert_eq in Lplatform. rewrite lookup_insert_eq in Lstatus.
    repeat split; congruence. }
  destruct Eid as (-> & -> & -> & ->).
  assert (Aid : canonical (JObject again) idPaths = Return id).
  { apply (canonical_again fields); [exact Lid| |exact Hid|].
    - repeat constructor; eexists _, _; (split; [reflexivity|assumption]).
    - intros v. apply Hvisible. set_solver. }
  assert (Aname : canonical (JObject again) displayNamePaths = Return name).
  { apply (canonical_again fields); [exact Lname| |exact Hname|].
    - repeat constructor; eexists _, _; (split; [reflexivity|assumption]).
    - intros v. apply Hvisible. set_solver. }
  assert (Aplatform : canonical (JObject again) platformPaths = Return platform).
  { apply (canonical_again fields); [exact Lplatform| |exact Hplatform|].
    - repeat constructor; eexists _, _; (split; [reflexivity|assumption]).
    - intros v. apply Hvisible. set_solver. }
  assert (Astatus : canonical (JObject again) statusPaths = Return status).
  { apply (canonical_again fields); [exact Lstatus| |exact Hstatus|].
    - repeat constructor; eexists _, _; (split; [reflexivity|assumption]).
    - intros v. apply Hvisible. set_solver. }
  rewrite normalizeHost_canonical, Aid, Aname, Aplatform, Astatus, !bind_Return.
  f_equal. unfold record at 1. cbn [spread].
  rewrite (insert_id again "uuid") by exact Lid.
  rewrite (insert_id again "hostname") by exact Lname.
  rewrite (insert_id again "platform") by exact Lplatform.
  apply insert_id. exact Lstatus.
Qed.

Lemma normalizeHost_idempotent_witness :
  @normalizeHost Ref.numbers specOnly
    = Return (<["status" := JString ""]>
                (<["platform" := JString ""]>
                   (<["hostname" := JString "Y"]>
                      (<["uuid" := JString "X"]> (@spread Ref.numbers specOnly)))))
  /\ @selectionsVisible Ref.numbers specOnly
  /\ @normalizeHost Ref.numbers
       (JObject (<["status" := JString ""]>
                   (<["platform" := JString ""]>
                      (<["hostname" := JString "Y"]>
                         (<["uuid" := JString "X"]> (@spread Ref.numbers specOnly))))))
     = Return (<["status" := JString ""]>
                 (<["platform" := JString ""]>
                    (<["hostname" := JString "Y"]>
                       (<["uuid" := JString "X"]> (@spread Ref.numbers specOnly))))).
Proof.
  assert (Hrun : @normalizeHost Ref.numbers specOnly
                 = Return (<["status" := JString ""]>
                             (<["platform" := JString ""]>
                                (<["hostname" := JString "Y"]>
                                   (<["uuid" := JString "X"]>
                                      (@spread Ref.numbers specOnly))))))
    by reflexivity.
  assert (Hvisible : @selectionsVisible Ref.numbers specOnly).
  { intros paths v Hin. rewrite !elem_of_cons in Hin.
    destruct Hin as [->|[->|[->|[->|Hin]]]]; [| | | |inversion Hin];
      intros Hsel; vm_compute in Hsel; try discriminate;
      injection Hsel as <-; discriminate. }
  split; [exact Hrun|]. split; [exact Hvisible|].
  exact (@normalizeHost_idempotent Ref.numbers _ _ Hrun Hvisible).
Defined.

(** ** Further properties of the routes *)

Lemma substring_whole (s : string) (m : nat) :
  (String.length s <= m)%nat -> substring 0 m s = s.
Proof.
  revert m. induction s as [|a s IH]; intros [|m] Hle; simpl in *;
    try reflexivity; try lia.
  rewrite IH by lia. reflexivity.
Qed.

Lemma substring_is_prefix (s : string) (m : nat) :
  String.prefix (substring 0 m s) s = true.
Proof.
  revert m. induction s as [|a s IH]; intros [|m]; simpl; try reflexivity.
  destruct (Ascii.ascii_dec a a) as [_|Hne]; [apply IH|contradiction].
Qed.

(** [stdout.slice(0, 400)] is the output itself when it is short, and
    its first 400 characters otherwise. *)
Lemma slice_first (s : string) (m : nat) :
  (String.length (slice s 0 (Z.of_nat m)) <= m)%nat
  /\ String.prefix (slice s 0 (Z.of_nat m)) s = true
  /\ ((String.length s <= m)%nat -> slice s 0 (Z.of_nat m) = s).
Proof.
  unfold slice, clamp.
  destruct (Z.ltb_spec 0 0) as [Hlt|_]; [lia|].
  destruct (Z.ltb_spec (Z.of_nat m) 0) as [Hlt|_]; [lia|].
  rewrite Z.min_l by lia. rewrite Z.sub_0_r. change (Z.to_nat 0) with 0%nat.
  split; [|split].
  - etransitivity; [apply substring_prefix_length|]. lia.
  - apply substring_is_prefix.
  - intros Hshort. apply substring_whole. lia.
Qed.

Lemma valid_host_no_comma (s : string) (n : nat) (c : ascii) :
  isValidHostIdentifier (PString s) = true ->
  String.get n s = Some c -> c <> ","%char.
Proof.
  intros Hvalid Hc ->.
  apply valid_host_chars in Hvalid as [_ Hall].
  destruct (trim_chars s n _ Hc) as [Hws|[m Hm]]; [discriminate Hws|].
  specialize (Hall m _ Hm). discriminate Hall.
Qed.

Lemma safeArgs_login (email password context : string) :
  email <> "--password" -> password <> "--password" ->
  safeArgs [ "login"; "--email"; email; "--password"; password; "--context"; context ]
  = [ "login"; "--email"; email; "--password"; "******"; "--context"; context ].
Proof.
  intros He Hp. unfold safeArgs. cbn.
  rewrite (bool_decide_eq_false_2 (Some email = Some "--password")) by congruence.
  rewrite (bool_decide_eq_false_2 (Some password = Some "--password")) by congruence.
  reflexivity.
Qed.

Lemma valid_email_not_flag (email : Param) :
  isValidEmail email = true -> Param_String email <> "--password".
Proof.
  intros Hvalid Heq. unfold isValidEmail in Hvalid. rewrite Heq in Hvalid.
  vm_compute in Hvalid. discriminate.
Qed.

Section RouteMore.
Context `{Json} `{Env}.

(** X15: when the route of the host list answers with hosts, the tool
    had ended without error, its output was interpreted, there is one
    record per device in device order, and every record holds the four
    canonical fields as texts. *)
Theorem api_hosts_done_ok (error : option Exception) (stdout stderr : string)
    (hosts : list (gmap string JsonValue)) :
  Respond 200 (BodyHosts hosts) ∈ api_hosts_done error stdout stderr ->
  error = None
  /\ exists value,
       (parsePossibleJson stdout).2 = Return value
       /\ Forall2 (fun host r => normalizeHost host = Return r) (devices value) hosts
       /\ Forall hasCanonicalFields hosts.
Proof.
  unfold api_hosts_done. destruct error as [err|].
  { rewrite !elem_of_cons. intros [Hin|[Hin|Hin]]; try discriminate. inversion Hin. }
  destruct (parsePossibleJson stdout).2 as [value|e] eqn:Hparse.
  - rewrite bind_Return.
    destruct (extractHostsFromOutput value) as [records|e] eqn:Hextract.
    + intros Hin. apply list_elem_of_singleton in Hin. injection Hin as ->.
      split; [reflexivity|]. exists value. split; [reflexivity|].
      pose proof (extractHostsFromOutput_Return _ _ Hextract) as Hall.
      split; [exact Hall|].
      clear Hextract. induction Hall as [|host r hostsLeft records Hr _ IH];
        constructor; [|exact IH].
      apply normalizeHost_Return in Hr as (a & b & c & d & _ & _ & _ & _ & ->).
      apply record_hasCanonicalFields.
    + rewrite !elem_of_cons. intros [Hin|[Hin|Hin]]; try discriminate. inversion Hin.
  - rewrite bind_Throw.
    rewrite !elem_of_cons. intros [Hin|[Hin|Hin]]; try discriminate. inversion Hin.
Qed.

(** X16: when the output of the host list cannot be interpreted or
    normalised, the exception itself is handed to [console.error] after
    the text [JSON Parse Error:], and the answer is one error of status
    500 whose details give the message of the exception and quote the
    output: all of it when it has at most 400 characters, its first 400
    otherwise. The exception is one of the interpreter, or the TypeError
    of the normaliser. *)
Theorem api_hosts_done_failure (stdout stderr : string) (e : Exception) :
  (parsePossibleJson stdout).2 ≫= extractHostsFromOutput = Throw e ->
  api_hosts_done None stdout stderr
  = [ ConsoleErrorWith "JSON Parse Error:" e;
      Respond 500 (BodyError "Failed to parse hosts JSON"
                     (Some (message e +:+ ". Raw output (first 400 chars): "
                              +:+ slice stdout 0 400))) ]
  /\ (String.length (slice stdout 0 400) <= 400)%nat
  /\ String.prefix (slice stdout 0 400) stdout = true
  /\ ((String.length stdout <= 400)%nat -> slice stdout 0 400 = stdout)
  /\ ((parsePossibleJson stdout).2 = Throw e \/ e = primitiveError).
Proof.
  intros Hthrow. unfold api_hosts_done. rewrite Hthrow.
  split; [reflexivity|].
  destruct (slice_first stdout 400) as (Hlen & Hprefix & Hwhole).
  split; [exact Hlen|]. split; [exact Hprefix|]. split; [exact Hwhole|].
  destruct (parsePossibleJson stdout).2 as [value|e'].
  - right. rewrite bind_Return in Hthrow.
    exact (extractHostsFromOutput_Throw _ _ Hthrow).
  - left. rewrite bind_Throw in Hthrow. injection Hthrow as ->. reflexivity.
Qed.

(** X17: a command that ended without error is answered once, with
    status 200, whatever it printed: interpreted data is sent only when
    [--json] is among the arguments and the output is interpreted, and
    in every other case the output is relayed as it is. *)
Theorem runFleetCommand_done_success (args : list string) (stdout stderr : string) :
  exists body,
    runFleetCommand_done args None stdout stderr = [ Respond 200 body ]
    /\ (body = BodyOutput stdout
        \/ exists v, "--json" ∈ args /\ (parsePossibleJson stdout).2 = Return v
                     /\ body = BodyData v)
    /\ (isThrow (parsePossibleJson stdout).2 -> body = BodyOutput stdout)
    /\ ("--json" ∉ args -> body = BodyOutput stdout).
Proof.
  unfold runFleetCommand_done.
  destruct (existsb (String.eqb "--json") args) eqn:Hjson.
  - apply existsb_exists in Hjson as (arg & Hin & Harg).
    apply String.eqb_eq in Harg as <-. apply list_elem_of_In in Hin.
    destruct (parsePossibleJson stdout).2 as [v|e] eqn:Hparse.
    + exists (BodyData v). split; [reflexivity|]. split; [right; eauto|].
      split; [intros [e He]; discriminate|]. intros Hno. contradiction.
    + exists (BodyOutput stdout). split; [reflexivity|]. split; [left; reflexivity|].
      split; reflexivity.
  - exists (BodyOutput stdout). split; [reflexivity|]. split; [left; reflexivity|].
    split; reflexivity.
Qed.

End RouteMore.

Lemma api_hosts_done_ok_witness :
  Respond 200 (BodyHosts hostsAnswer) ∈ @api_hosts_done _ Ref.json None hostsOutput ""
  /\ Forall (@hasCanonicalFields Ref.numbers) hostsAnswer.
Proof.
  assert (Hin : Respond 200 (BodyHosts hostsAnswer)
                ∈ @api_hosts_done _ Ref.json None hostsOutput "").
  { assert (Hrun : @api_hosts_done _ Ref.json None hostsOutput ""
                   = [ Respond 200 (BodyHosts hostsAnswer) ]) by reflexivity.
    rewrite Hrun. apply list_elem_of_here. }
  split; [exact Hin|].
  destruct (@api_hosts_done_ok _ Ref.json None hostsOutput "" hostsAnswer Hin)
    as (_ & value & _ & _ & Hall).
  exact Hall.
Defined.

Lemma api_hosts_done_failure_witness :
  (@parsePossibleJson _ Ref.json "").2 ≫= @extractHostsFromOutput Ref.numbers
    = Throw (Error "Empty output from fleetctl")
  /\ @api_hosts_done _ Ref.json None "" ""
     = [ ConsoleErrorWith "JSON Parse Error:" (Error "Empty output from fleetctl");
         Respond 500 (BodyError "Failed to parse hosts JSON"
                        (Some ("Empty output from fleetctl"
                                 +:+ ". Raw output (first 400 chars): "
                                 +:+ slice "" 0 400))) ].
Proof.
  assert (Hthrow : (@parsePossibleJson _ Ref.json "").2
                     ≫= @extractHostsFromOutput Ref.numbers
                   = Throw (Error "Empty output from fleetctl")) by reflexivity.
  split; [exact Hthrow|].
  exact (proj1 (@api_hosts_done_failure _ Ref.json "" "" _ Hthrow)).
Defined.

Section RouteMore2.
Context `{Json} `{Env}.

(** X18: the answer to a configuration request carries interpreted data
    only when the context of the request is the text [--json]: the
    context passes the context check and is then found among the
    arguments by the test that decides on the interpretation. *)
Theorem config_data_needs_json_context (address context : Param) (args : list string)
    (stdout stderr : string) (v : JsonValue) :
  runsWith (api_config address context) args ->
  runFleetCommand_done args None stdout stderr = [ Respond 200 (BodyData v) ] ->
  Param_or context "default" = "--json".
Proof.
  unfold api_config. intros (file & buffer & Hin) Hdone.
  destruct (negb (Param_truthy address)
            || negb (startsWith "http" (Param_String address))) eqn:Haddress.
  { apply badRequest_only in Hin. discriminate. }
  destruct (negb (isValidContext context)).
  { apply badRequest_only in Hin. discriminate. }
  unfold runFleetCommand in Hin. rewrite !elem_of_cons in Hin.
  destruct Hin as [Hin|[Hin|Hin]]; try discriminate; [|inversion Hin].
  injection Hin as _ -> _.
  apply orb_false_iff in Haddress as [_ Hhttp]. apply negb_false_iff in Hhttp.
  unfold runFleetCommand_done in Hdone.
  destruct (existsb (String.eqb "--json")
              ["config"; "set"; "--address"; Param_String address; "--context";
               Param_or context "default"]) eqn:Hjson; [|discriminate].
  cbn [existsb] in Hjson.
  destruct (String.eqb_spec "--json" (Param_String address)) as [Heq|_].
  { rewrite <- Heq in Hhttp. vm_compute in Hhttp. discriminate. }
  destruct (String.eqb_spec "--json" (Param_or context "default")) as [Heq|_];
    [symmetry; exact Heq|].
  vm_compute in Hjson. discriminate.
Qed.

(** X19: the line the login route logs is the same for any two
    passwords, the text [--password] apart: it shows the mask in place
    of the password, while each password is handed to the tool. *)
Theorem login_log_hides_password (email password password' context : Param) :
  isValidEmail email = true ->
  Param_truthy password = true -> Param_truthy password' = true ->
  Param_String password <> "--password" -> Param_String password' <> "--password" ->
  let line := "Executing: " +:+ FLEET_CTL_PATH +:+ " "
                +:+ join " " [ "login"; "--email"; Param_String email; "--password";
                               "******"; "--context"; Param_or context "default" ] in
  api_login email password context
  = [ ConsoleLog line;
      ExecFile FLEET_CTL_PATH
               [ "login"; "--email"; Param_String email; "--password";
                 Param_String password; "--context"; Param_or context "default" ]
               maxBuffer ]
  /\ api_login email password' context
     = [ ConsoleLog line;
         ExecFile FLEET_CTL_PATH
                  [ "login"; "--email"; Param_String email; "--password";
                    Param_String password'; "--context"; Param_or context "default" ]
                  maxBuffer ].
Proof.
  intros Hemail Hp Hp' Hne Hne' line. unfold api_login, runFleetCommand.
  rewrite Hemail, Hp, Hp'. cbn [negb].
  rewrite !safeArgs_login by (try assumption; apply valid_email_not_flag; exact Hemail).
  split; reflexivity.
Qed.

(** X20: an argument vector without [--password] is logged as it is. *)
Theorem safeArgs_without_flag (args : list string) :
  "--password" ∉ args -> safeArgs args = args.
Proof.
  intros Hno. apply list_eq. intros i. rewrite safeArgs_lookup.
  destruct (args !! i) as [arg|] eqn:Harg; [|reflexivity]. simpl. f_equal.
  destruct (0 <? i)%nat; [|reflexivity]. simpl.
  rewrite bool_decide_eq_false_2; [reflexivity|].
  intros Hprev. apply Hno. apply (list_elem_of_lookup_2 _ _ _ Hprev).
Qed.

Lemma api_run_command_started (hosts : option (list Param)) (payload context : Param)
    (args : list string) :
  runsWith (api_run_command hosts payload context) args ->
  exists listed name,
    hosts = Some listed /\ listed <> []
    /\ Forall (fun hostId => isValidHostIdentifier hostId = true) listed
    /\ payload = PString name /\ isValidFilename name = true
    /\ existsSync (path_join PAYLOADS_DIR name) = true
    /\ isValidContext context = true
    /\ args = [ "mdm"; "run-command"; "--payload"; path_join PAYLOADS_DIR name;
                "--hosts"; join "," (List.map Param_String listed);
                "--context"; Param_or context "default" ].
Proof.
  unfold api_run_command. intros (file & buffer & Hin).
  destruct hosts as [[|hostId listed]|];
    try (apply badRequest_only in Hin; discriminate).
  destruct (negb (isValidContext context)) eqn:Hcontext;
    [apply badRequest_only in Hin; discriminate|].
  destruct (0 <? length (List.filter (fun hostId0 => negb (isValidHostIdentifier hostId0))
                                     (hostId :: listed)))%nat eqn:Hinvalid;
    [apply badRequest_only in Hin; discriminate|].
  destruct (negb (Param_truthy payload)
            || negb (isValidFilename (Param_String payload))) eqn:Hpayload;
    [apply badRequest_only in Hin; discriminate|].
  destruct (negb (existsSync (path_join PAYLOADS_DIR (Param_String payload)))) eqn:Hexists.
  { apply list_elem_of_singleton in Hin. discriminate. }
  unfold runFleetCommand in Hin. rewrite !elem_of_cons in Hin.
  destruct Hin as [Hin|[Hin|Hin]]; try discriminate; [|inversion Hin].
  injection Hin as _ -> _.
  apply negb_false_iff in Hcontext, Hexists.
  apply orb_false_iff in Hpayload as [Htruthy Hname].
  apply negb_false_iff in Htruthy, Hname.
  destruct payload as [| |name]; try discriminate. cbn [Param_String] in *.
  assert (Hvalid : Forall (fun hostId0 => isValidHostIdentifier hostId0 = true)
                          (hostId :: listed)).
  { apply Nat.ltb_ge in Hinvalid. apply Forall_forall. intros host Hhost.
    destruct (isValidHostIdentifier host) eqn:Hv; [reflexivity|].
    assert (Hmem : In host (List.filter (fun hostId0 => negb (isValidHostIdentifier hostId0))
                                        (hostId :: listed))).
    { apply filter_In. split; [apply list_elem_of_In; exact Hhost|].
      rewrite Hv. reflexivity. }
    destruct (List.filter (fun hostId0 => negb (isValidHostIdentifier hostId0))
                          (hostId :: listed)); [contradiction|simpl in Hinvalid; lia]. }
  exists (hostId :: listed), name.
  split; [reflexivity|]. split; [discriminate|]. split; [exact Hvalid|].
  split; [reflexivity|]. split; [exact Hname|]. split; [exact Hexists|].
  split; [exact Hcontext|]. reflexivity.
Qed.

(** X21: when the route that runs a command starts the tool, the hosts
    are a non-empty list of accepted identifiers, the payload is an
    accepted name whose file exists under the payload directory, the
    context is accepted, the vector is the one of [mdm run-command] with
    that path, the identifiers joined by commas and the context, and the
    joined identifiers split at the commas into the identifiers again. *)
Theorem api_run_command_runs (hosts : option (list Param)) (payload context : Param)
    (args : list string) :
  runsWith (api_run_command hosts payload context) args ->
  exists listed name,
    hosts = Some listed /\ listed <> []
    /\ Forall (fun hostId => isValidHostIdentifier hostId = true) listed
    /\ payload = PString name /\ isValidFilename name = true
    /\ existsSync (path_join PAYLOADS_DIR name) = true
    /\ isValidContext context = true
    /\ args = [ "mdm"; "run-command"; "--payload"; path_join PAYLOADS_DIR name;
                "--hosts"; join "," (List.map Param_String listed);
                "--context"; Param_or context "default" ]
    /\ split "," (join "," (List.map Param_String listed)) = List.map Param_String listed.
Proof.
  intros Hruns.
  destruct (api_run_command_started _ _ _ _ Hruns)
    as (listed & name & -> & Hne & Hvalid & -> & Hname & Hexists & Hcontext & ->).
  exists listed, name. repeat (split; [first [reflexivity|assumption]|]).
  apply (split_join "," (List.map Param_String listed)).
  - destruct listed; [contradiction|discriminate].
  - apply Forall_forall. intros part Hpart. apply list_elem_of_In in Hpart.
    apply in_map_iff in Hpart as (host & <- & Hhost). apply list_elem_of_In in Hhost.
    rewrite Forall_forall in Hvalid. specialize (Hvalid host Hhost).
    destruct host as [| |s]; try discriminate. simpl.
    intros n c Hc. exact (valid_host_no_comma s n c Hvalid Hc).
Qed.

(** X22: the context argument the routes of the configuration, the host
    list and the commands hand to the tool follows [--context] at the end
    of the vector, is never empty and holds letters, digits, dots,
    underscores and hyphens only. *)
Theorem context_argument_is_checked (args : list string) :
  (forall address context,
     runsWith (api_config address context) args -> checkedContext args)
  /\ (forall queryContext, runsWith (api_hosts queryContext) args -> checkedContext args)
  /\ (forall hosts payload context,
        runsWith (api_run_command hosts payload context) args -> checkedContext args).
Proof.
  split; [|split].
  - intros address context (file & buffer & Hin). unfold api_config in Hin.
    destruct (negb (Param_truthy address)
              || negb (startsWith "http" (Param_String address)));
      [apply badRequest_only in Hin; discriminate|].
    destruct (negb (isValidContext context)) eqn:Hcontext;
      [apply badRequest_only in Hin; discriminate|].
    apply negb_false_iff in Hcontext.
    unfold runFleetCommand in Hin. rewrite !elem_of_cons in Hin.
    destruct Hin as [Hin|[Hin|Hin]]; try discriminate; [|inversion Hin].
    injection Hin as _ -> _.
    exists ["config"; "set"; "--address"; Param_String address],
           (Param_or context "default").
    split; [reflexivity|]. apply Param_or_checked. exact Hcontext.
  - intros queryContext (file & buffer & Hin). unfold api_hosts in Hin.
    destruct (negb (isValidContext (PString (Param_or queryContext "default"))))
      eqn:Hcontext; [apply badRequest_only in Hin; discriminate|].
    apply negb_false_iff in Hcontext.
    rewrite !elem_of_cons in Hin.
    destruct Hin as [Hin|[Hin|Hin]]; try discriminate; [|inversion Hin].
    injection Hin as _ -> _.
    exists ["get"; "hosts"; "--mdm"; "--json"], (Param_or queryContext "default").
    split; [reflexivity|].
    destruct (Param_or_checked _ Hcontext) as [Hne Hall].
    assert (Hsame : Param_or (PString (Param_or queryContext "default")) "default"
                    = Param_or queryContext "default").
    { unfold Param_or at 1. simpl.
      destruct (String.eqb_spec (Param_or queryContext "default") "") as [Hempty|_];
        [|reflexivity].
      exfalso. unfold Param_or in Hempty.
      destruct (Param_truthy queryContext) eqn:Ht; [|discriminate].
      destruct queryContext as [| |s]; try discriminate. simpl in *.
      rewrite Hempty in Ht. discriminate. }
    rewrite Hsame in Hne, Hall. auto.
  - intros hosts payload context Hruns.
    destruct (api_run_command_started _ _ _ _ Hruns)
      as (listed & name & _ & _ & _ & _ & _ & _ & Hcontext & ->).
    exists ["mdm"; "run-command"; "--payload"; path_join PAYLOADS_DIR name;
            "--hosts"; join "," (List.map Param_String listed)],
           (Param_or context "default").
    split; [reflexivity|]. apply Param_or_checked. exact Hcontext.
Qed.

(** X23: a request whose fields are each missing, [null] or a text, and
    that fails a check of its route, gets one answer of status 400 and
    nothing else happens: nothing is logged and the tool is not started.
    The checks are, for the configuration, the address and the context;
    for the login, the address of mail and the password; for the host
    list, the context; for a command, the hosts, the context, each
    identifier and the payload name. (A field that holds another kind of
    value can make the handler throw instead; such requests are not
    among the [Param] the statement ranges over.) *)
Theorem rejected_requests_get_one_answer :
  (forall address context,
     Param_truthy address = false
     \/ startsWith "http" (Param_String address) = false
     \/ isValidContext context = false ->
     exists msg, api_config address context = [ Respond 400 (BodyError msg None) ])
  /\ (forall email password context,
        isValidEmail email = false \/ Param_truthy password = false ->
        exists msg, api_login email password context
                    = [ Respond 400 (BodyError msg None) ])
  /\ (forall queryContext,
        isValidContext (PString (Param_or queryContext "default")) = false ->
        api_hosts queryContext
        = [ Respond 400 (BodyError "Invalid context name" None) ])
  /\ (forall hosts payload context,
        hosts = None \/ hosts = Some []
        \/ isValidContext context = false
        \/ (exists listed, hosts = Some listed
                           /\ Exists (fun hostId => isValidHostIdentifier hostId = false)
                                     listed)
        \/ Param_truthy payload = false
        \/ isValidFilename (Param_String payload) = false ->
        exists msg, api_run_command hosts payload context
                    = [ Respond 400 (BodyError msg None) ]).
Proof.
  split; [|split; [|split]].
  - intros address context Hbad. exact (api_config_rejects _ _ Hbad).
  - intros email password context Hbad. exact (api_login_rejects _ _ _ Hbad).
  - intros queryContext Hbad. exact (api_hosts_rejects _ Hbad).
  - intros hosts payload context Hbad. exact (api_run_command_rejects _ _ _ Hbad).
Qed.

End RouteMore2.

Lemma config_data_needs_json_context_witness :
  @runsWith Ref.numbers
    (@api_config Ref.numbers Ref.env (PString "http://fleet.example.com") (PString "--json"))
    [ "config"; "set"; "--address"; "http://fleet.example.com"; "--context"; "--json" ]
  /\ @runFleetCommand_done _ Ref.json
       [ "config"; "set"; "--address"; "http://fleet.example.com"; "--context"; "--json" ]
       None ("{" +:+ quoted "a" +:+ ":1}") ""
     = [ Respond 200 (BodyData (JObject {[ "a" := JNumber one ]})) ]
  /\ Param_or (PString "--json") "default" = "--json".
Proof.
  assert (Hruns : @runsWith Ref.numbers
            (@api_config Ref.numbers Ref.env (PString "http://fleet.example.com")
               (PString "--json"))
            [ "config"; "set"; "--address"; "http://fleet.example.com";
              "--context"; "--json" ]).
  { exists "/opt/fleet_ctl/fleetctl", maxBuffer.
    apply list_elem_of_further, list_elem_of_here. }
  assert (Hdone : @runFleetCommand_done _ Ref.json
            [ "config"; "set"; "--address"; "http://fleet.example.com";
              "--context"; "--json" ]
            None ("{" +:+ quoted "a" +:+ ":1}") ""
          = [ Respond 200 (BodyData (JObject {[ "a" := JNumber one ]})) ])
    by (vm_compute; reflexivity).
  split; [exact Hruns|]. split; [exact Hdone|].
  exact (@config_data_needs_json_context _ Ref.json Ref.env _ _ _ _ _ _ Hruns Hdone).
Defined.

Lemma login_log_hides_password_witness :
  isValidEmail (PString "op@example.com") = true
  /\ Param_truthy (PString "hunter2") = true /\ Param_truthy (PString "s3cret") = true
  /\ Param_String (PString "hunter2") <> "--password"
  /\ Param_String (PString "s3cret") <> "--password"
  /\ @api_login Ref.numbers Ref.env (PString "op@example.com") (PString "s3cret") PUndefined
     = [ ConsoleLog ("Executing: /opt/fleet_ctl/fleetctl login --email op@example.com "
                       +:+ "--password ****** --context default");
         ExecFile "/opt/fleet_ctl/fleetctl"
                  [ "login"; "--email"; "op@example.com"; "--password"; "s3cret";
                    "--context"; "default" ]
                  maxBuffer ].
Proof.
  assert (Hemail : isValidEmail (PString "op@example.com") = true)
    by (vm_compute; reflexivity).
  assert (Hne : Param_String (PString "hunter2") <> "--password") by discriminate.
  assert (Hne' : Param_String (PString "s3cret") <> "--password") by discriminate.
  split; [exact Hemail|]. split; [reflexivity|]. split; [reflexivity|].
  split; [exact Hne|]. split; [exact Hne'|].
  exact (proj2 (@login_log_hides_password Ref.numbers Ref.env
                  (PString "op@example.com") (PString "hunter2") (PString "s3cret")
                  PUndefined Hemail eq_refl eq_refl Hne Hne')).
Defined.

Lemma safeArgs_without_flag_witness :
  ("--password" ∉ [ "get"; "hosts"; "--mdm"; "--json"; "--context"; "default" ])
  /\ safeArgs [ "get"; "hosts"; "--mdm"; "--json"; "--context"; "default" ]
     = [ "get"; "hosts"; "--mdm"; "--json"; "--context"; "default" ].
Proof.
  assert (Hno : "--password" ∉ [ "get"; "hosts"; "--mdm"; "--json"; "--context"; "default" ]).
  { rewrite !not_elem_of_cons. repeat split; try discriminate. apply not_elem_of_nil. }
  split; [exact Hno|]. exact (safeArgs_without_flag _ Hno).
Defined.

Lemma api_run_command_runs_witness :
  @runsWith Ref.numbers
    (@api_run_command Ref.numbers Ref.env (Some selectedHosts)
       (PString "lock-device.xml") PNull)
    runCommandArgs
  /\ split "," "mac-01,123e4567-e89b-12d3-a456-426614174000"
     = [ "mac-01"; "123e4567-e89b-12d3-a456-426614174000" ].
Proof.
  assert (Hruns : @runsWith Ref.numbers
            (@api_run_command Ref.numbers Ref.env (Some selectedHosts)
               (PString "lock-device.xml") PNull)
            runCommandArgs).
  { exists "/opt/fleet_ctl/fleetctl", maxBuffer.
    assert (Hrun : @api_run_command Ref.numbers Ref.env (Some selectedHosts)
                     (PString "lock-device.xml") PNull
                   = @runFleetCommand Ref.numbers Ref.env runCommandArgs)
      by (vm_compute; reflexivity).
    rewrite Hrun. apply list_elem_of_further, list_elem_of_here. }
  split; [exact Hruns|].
  destruct (@api_run_command_runs Ref.numbers Ref.env _ _ _ _ Hruns)
    as (listed & name & Hhosts & _ & _ & _ & _ & _ & _ & _ & Hsplit).
  injection Hhosts as <-. exact Hsplit.
Defined.

Lemma rejected_requests_get_one_answer_witness :
  isValidContext (PString (Param_or (PString "x; y") "default")) = false
  /\ @api_hosts Ref.numbers Ref.env (PString "x; y")
     = [ Respond 400 (BodyError "Invalid context name" None) ].
Proof.
  assert (Hbad : isValidContext (PString (Param_or (PString "x; y") "default")) = false)
    by (vm_compute; reflexivity).
  split; [exact Hbad|].
  exact (proj1 (proj2 (proj2 (@rejected_requests_get_one_answer Ref.numbers Ref.env)))
           (PString "x; y") Hbad).
Defined.

Lemma context_argument_is_checked_witness :
  @runsWith Ref.numbers (@api_hosts Ref.numbers Ref.env (PString "staging"))
    [ "get"; "hosts"; "--mdm"; "--json"; "--context"; "staging" ]
  /\ checkedContext [ "get"; "hosts"; "--mdm"; "--json"; "--context"; "staging" ].
Proof.
  assert (Hruns : @runsWith Ref.numbers (@api_hosts Ref.numbers Ref.env (PString "staging"))
                    [ "get"; "hosts"; "--mdm"; "--json"; "--context"; "staging" ]).
  { exists "/opt/fleet_ctl/fleetctl", maxBuffer.
    assert (Hrun : @api_hosts Ref.numbers Ref.env (PString "staging")
                   = [ ConsoleLog ("Executing: /opt/fleet_ctl/fleetctl get hosts --mdm "
                                     +:+ "--json --context staging");
                       ExecFile "/opt/fleet_ctl/fleetctl"
                                [ "get"; "hosts"; "--mdm"; "--json"; "--context"; "staging" ]
                                maxBuffer ])
      by (vm_compute; reflexivity).
    rewrite Hrun. apply list_elem_of_further, list_elem_of_here. }
  split; [exact Hruns|].
  exact (proj1 (proj2 (@context_argument_is_checked Ref.numbers Ref.env _))
           (PString "staging") Hruns).
Defined.
